(** * PeakPickerRapid: a shallow embedding of
      include/OpenMS/TRANSFORMATIONS/RAW2PEAK/PeakPickerRapid.h

    The header holds three pieces of code: the closed-form three-point
    Gaussian fit [computeTPG], the scaled Gaussian
    [computeScaledGaussian], and the two drivers [pick] (one spectrum)
    and [pickExperiment] (a sequence of spectra).

    Modelling decisions.
    - [Size] is the unsigned 64-bit [size_t]; every [Size] operation is
      written with its wrap-around.
    - [operator[]] on a [std::vector] is undefined outside the vector;
      the model returns the error [OutOfRange] there.
    - [DoubleReal] is an interface ([DoubleOps]).  Two instances are
      given: IEEE-754 binary64 (Rocq's primitive floats, with the three
      libm functions [log], [pow], [exp] as a parameter), and the real
      numbers (the exact reading of the same formulas).
    - Classes of the repository that the header only uses
      (SpectrumSettings, MetaInfoInterface, ExperimentalSettings) are
      kept opaque ([Collaborators]).
    - The bitset [occupied] of [pick] is allocated and never read; it
      is left out.
    - [pick] and [pickExperiment] are first written on values: the
      output is returned, the input cannot change.  They are written a
      second time over a store of objects, through references
      ([pick_ref], [pickExperiment_ref]), where input and output may be
      one object; on separate objects the two readings are proved to
      agree. *)

From Stdlib Require Import ZArith List String Bool Lia.
From Stdlib Require Import Reals Lra.
From Stdlib Require Import Floats Uint63.
Import ListNotations.

Set Implicit Arguments.

(* ================================================================= *)
(** ** Size arithmetic *)

Module SizeT.

(** [typedef size_t Size;] on an LP64 platform. *)
Definition bits : Z := 64.
Definition modulus : Z := 2 ^ bits.

Definition wrap (z : Z) : Z := z mod modulus.
Definition add (a b : Z) : Z := wrap (a + b).
Definition sub (a b : Z) : Z := wrap (a - b).

(** A container size: always representable. *)
Definition representable (n : nat) : Prop := (Z.of_nat n < modulus)%Z.

End SizeT.

(* ================================================================= *)
(** ** Results of fallible code *)

Inductive error : Type :=
| OutOfRange   (* an element access outside a vector *)
| OutOfFuel.   (* the model's loop budget is used up; shown unreachable *)

Inductive result (A : Type) : Type :=
| Ok (a : A)
| Err (e : error).

Arguments Ok {A} a.
Arguments Err {A} e.

Definition bind {A B : Type} (r : result A) (k : A -> result B) : result B :=
  match r with
  | Ok a => k a
  | Err e => Err e
  end.

Declare Scope result_scope.
Delimit Scope result_scope with result.
Notation "x <- r ;; k" := (bind r (fun x => k))
  (at level 61, r at next level, right associativity) : result_scope.
Notation "' p <- r ;; k" := (bind r (fun x => let 'p := x in k))
  (at level 61, p pattern, r at next level, right associativity) : result_scope.
Open Scope result_scope.

(** [v[i]] and [v[i] = x] on a vector. *)
Definition at_ {A : Type} (v : list A) (i : Z) : result A :=
  if (i <? 0)%Z then Err OutOfRange
  else match nth_error v (Z.to_nat i) with
       | Some a => Ok a
       | None => Err OutOfRange
       end.

Fixpoint replace_nth {A : Type} (v : list A) (n : nat) (x : A) : list A :=
  match v, n with
  | [], _ => []
  | _ :: t, O => x :: t
  | h :: t, S m => h :: replace_nth t m x
  end.

Definition assign_at {A : Type} (v : list A) (i : Z) (x : A) : result (list A) :=
  if (i <? 0)%Z then Err OutOfRange
  else if (Z.to_nat i <? List.length v)%nat then Ok (replace_nth v (Z.to_nat i) x)
       else Err OutOfRange.

(* ================================================================= *)
(** ** The arithmetic of [DoubleReal] *)

Class DoubleOps (D : Type) : Type := {
  dadd : D -> D -> D;
  dsub : D -> D -> D;
  dmul : D -> D -> D;
  ddiv : D -> D -> D;
  dopp : D -> D;
  dsqrt : D -> D;            (* std::sqrt *)
  dfabs : D -> D;            (* std::fabs *)
  dlog : D -> D;             (* std::log  *)
  dpow : D -> D -> D;        (* std::pow  *)
  dexp : D -> D;             (* std::exp  *)
  dlt : D -> D -> bool;      (* a < b *)
  dne_infinity : D -> bool;  (* a != std::numeric_limits<DoubleReal>::infinity() *)
  lit_0_5 : D;               (* 0.5 *)
  lit_1_0 : D;               (* 1.0 *)
  lit_1_5 : D;               (* 1.5 *)
  lit_2 : D;                 (* 2, converted to DoubleReal *)
  lit_3_0 : D;               (* 3.0 *)
  lit_6 : D;                 (* 6, converted to DoubleReal *)
  lit_M_PI : D               (* M_PI *)
}.

Declare Scope dbl_scope.
Delimit Scope dbl_scope with dbl.
Notation "a + b" := (dadd a b) : dbl_scope.
Notation "a - b" := (dsub a b) : dbl_scope.
Notation "a * b" := (dmul a b) : dbl_scope.
Notation "a / b" := (ddiv a b) : dbl_scope.
Notation "- a" := (dopp a) : dbl_scope.
Notation "a <? b" := (dlt a b) : dbl_scope.
Notation "a >? b" := (dlt b a) : dbl_scope.

(** *** IEEE-754 binary64.  The header's libm calls are a parameter. *)

Class Libm : Type := {
  libm_log : float -> float;
  libm_pow : float -> float -> float;
  libm_exp : float -> float
}.

#[export] Instance binary64 {m : Libm} : DoubleOps float := {|
  dadd := PrimFloat.add;
  dsub := PrimFloat.sub;
  dmul := PrimFloat.mul;
  ddiv := PrimFloat.div;
  dopp := PrimFloat.opp;
  dsqrt := PrimFloat.sqrt;
  dfabs := PrimFloat.abs;
  dlog := libm_log;
  dpow := libm_pow;
  dexp := libm_exp;
  dlt := PrimFloat.ltb;
  dne_infinity := fun a => negb (PrimFloat.eqb a infinity);
  lit_0_5 := 0.5%float;
  lit_1_0 := 1%float;
  lit_1_5 := 1.5%float;
  lit_2 := 2%float;
  lit_3_0 := 3%float;
  lit_6 := 6%float;
  lit_M_PI := 0x1.921fb54442d18p+1%float
|}.

(** *** The real numbers: the exact reading of the formulas.  No real
    number is the IEEE infinity, and [std::pow] of a positive base is
    [Rpower]. *)

Definition Rltb (a b : R) : bool := if Rlt_dec a b then true else false.

#[export] Instance reals : DoubleOps R := {|
  dadd := Rplus;
  dsub := Rminus;
  dmul := Rmult;
  ddiv := Rdiv;
  dopp := Ropp;
  dsqrt := R_sqrt.sqrt;
  dfabs := Rabs;
  dlog := ln;
  dpow := Rpower;
  dexp := exp;
  dlt := Rltb;
  dne_infinity := fun _ => true;
  lit_0_5 := (1 / 2)%R;
  lit_1_0 := 1%R;
  lit_1_5 := (3 / 2)%R;
  lit_2 := 2%R;
  lit_3_0 := 3%R;
  lit_6 := 6%R;
  lit_M_PI := PI
|}.

(* ================================================================= *)
(** ** Peaks and the triplet fit *)

Record Peak (D : Type) : Type := mkPeak {
  getMZ : D;
  getIntensity : D
}.

(** The three out-parameters of [computeTPG] and its return value. *)
Record TPG (D : Type) : Type := mkTPG {
  mu : D;
  sigma : D;
  area : D;
  compOK : bool
}.

Section Fit.

Context {D : Type} {ops : DoubleOps D}.
Local Open Scope dbl_scope.

Definition computeTPG (p1 p2 p3 : Peak D) : TPG D :=
  let x1 := getMZ p1 in let y1 := getIntensity p1 in
  let x2 := getMZ p2 in let y2 := getIntensity p2 in
  let x3 := getMZ p3 in let y3 := getIntensity p3 in
  let denom :=
    dlog (dpow y1 (x3 - x2) * dpow y2 (x1 - x3) * dpow y3 (x2 - x1)) in
  let mu :=
    lit_0_5 * (dlog (dpow y1 (x3 * x3 - x2 * x2)
                    * dpow y2 (x1 * x1 - x3 * x3)
                    * dpow y3 (x2 * x2 - x1 * x1)) / denom) in
  let sigma :=
    dsqrt (lit_0_5 * ((x1 - x3) * (x2 - x1) * (x3 - x2)) / denom) in
  let area :=
    dsqrt (lit_2 * lit_M_PI * sigma * sigma)
    * dpow (y1 * y2 * y3) (lit_1_0 / lit_3_0)
    * dexp (((x1 - mu) * (x1 - mu) + (x2 - mu) * (x2 - mu)
             + (x3 - mu) * (x3 - mu)) / (lit_6 * sigma * sigma)) in
  mkTPG mu sigma area (dne_infinity area).

Definition computeScaledGaussian (x mu sigma area : D) : D :=
  (area / dsqrt (lit_2 * lit_M_PI * sigma * sigma))
  * dexp (- ((x - mu) * (x - mu)) / (lit_2 * sigma * sigma)).

End Fit.

(* ================================================================= *)
(** ** Spectra and experiments *)

(** [SpectrumSettings::SpectrumType].  The header names [PEAKS]; the
    enumeration itself is declared with SpectrumSettings. *)
Inductive SpectrumType : Type := UNKNOWN | PEAKS | RAWDATA.

(** What the header takes from classes declared elsewhere: their state
    is opaque, and a default-constructed object has some fixed state. *)
Class Collaborators (D : Type) : Type := {
  SettingsData : Type;          (* SpectrumSettings, apart from its type tag *)
  MetaInfoInterface : Type;
  ExperimentalSettings : Type;
  new_SettingsData : SettingsData;
  new_type : SpectrumType;
  new_MetaInfoInterface : MetaInfoInterface;
  new_ExperimentalSettings : ExperimentalSettings;
  new_RT : D;
  new_MSLevel : Z;
  new_Name : string
}.

Record SpectrumSettings {D : Type} {ext : Collaborators D} : Type :=
  mkSpectrumSettings {
    getType : SpectrumType;
    settings_data : SettingsData
  }.

Arguments mkSpectrumSettings {D ext} _ _.

Record MSSpectrum {D : Type} {ext : Collaborators D} : Type := mkMSSpectrum {
  settings : SpectrumSettings;
  meta_info : MetaInfoInterface;
  getRT : D;
  getMSLevel : Z;
  getName : string;
  peaks : list (Peak D)
}.

Arguments mkMSSpectrum {D ext} _ _ _ _ _ _.

Record MSExperiment {D : Type} {ext : Collaborators D} : Type :=
  mkMSExperiment {
    experimental_settings : ExperimentalSettings;
    spectra : list MSSpectrum
  }.

Arguments mkMSExperiment {D ext} _ _.

(** The two option values the header resolves from [param_]. *)
Record Param : Type := mkParam {
  intensity_type : string;
  ms1_only : bool
}.

(** Calls received by the ProgressLogger base. *)
Inductive ProgressEvent : Type :=
| startProgress (first last : Z) (label : string)
| setProgress (value : Z)
| endProgress.

Section Picker.

Context {D : Type} {ops : DoubleOps D} {ext : Collaborators D}.
Local Open Scope dbl_scope.

Definition MSSpectrum_new : MSSpectrum :=
  mkMSSpectrum (mkSpectrumSettings new_type new_SettingsData)
               new_MetaInfoInterface new_RT new_MSLevel new_Name [].

(** [MSSpectrum::clear(clear_meta_data)] *)
Definition clear (s : MSSpectrum) (clear_meta_data : bool) : MSSpectrum :=
  if clear_meta_data then MSSpectrum_new
  else mkMSSpectrum (settings s) (meta_info s) (getRT s) (getMSLevel s)
                    (getName s) [].

Definition size {A : Type} (v : list A) : Z := Z.of_nat (List.length v).

(** The ten reads at the head of the loop body, in source order:
    centre, left and right neighbour, second left and right neighbour. *)
Definition read_window (input : list (Peak D)) (i : Z)
  : result (Peak D * Peak D * Peak D * Peak D * Peak D) :=
  c  <- at_ input i ;;
  l1 <- at_ input (SizeT.sub i 1) ;;
  r1 <- at_ input (SizeT.add i 1) ;;
  l2 <- at_ input (SizeT.sub i 2) ;;
  r2 <- at_ input (SizeT.add i 2) ;;
  Ok (c, l1, r1, l2, r2).

Definition min_spacing (l1_to_central central_to_r1 : D) : D :=
  if l1_to_central <? central_to_r1 then l1_to_central else central_to_r1.

(** The condition of the [if] that looks for peak cores. *)
Definition peak_core (c l1 r1 l2 r2 : Peak D) : bool :=
  let central_peak_mz := getMZ c in
  let central_peak_int := getIntensity c in
  let l1_neighbor_mz := getMZ l1 in
  let l1_neighbor_int := getIntensity l1 in
  let r1_neighbor_mz := getMZ r1 in
  let r1_neighbor_int := getIntensity r1 in
  let l2_neighbor_mz := getMZ l2 in
  let l2_neighbor_int := getIntensity l2 in
  let r2_neighbor_mz := getMZ r2 in
  let r2_neighbor_int := getIntensity r2 in
  let l1_to_central := dfabs (central_peak_mz - l1_neighbor_mz) in
  let l2_to_l1 := dfabs (l1_neighbor_mz - l2_neighbor_mz) in
  let central_to_r1 := dfabs (r1_neighbor_mz - central_peak_mz) in
  let r1_to_r2 := dfabs (r2_neighbor_mz - r1_neighbor_mz) in
  let min_spacing := min_spacing l1_to_central central_to_r1 in
  (central_peak_int >? lit_1_0) && (l1_neighbor_int >? lit_1_0)
  && (l2_neighbor_int >? lit_1_0) && (r1_neighbor_int >? lit_1_0)
  && (r2_neighbor_int >? lit_1_0)
  && (l1_to_central <? lit_1_5 * min_spacing)
  && (l2_to_l1 <? lit_1_5 * min_spacing)
  && ((l2_neighbor_int <? l1_neighbor_int)
      && (l1_neighbor_int <? central_peak_int))
  && (central_to_r1 <? lit_1_5 * min_spacing)
  && (r1_to_r2 <? lit_1_5 * min_spacing)
  && ((r2_neighbor_int <? r1_neighbor_int)
      && (r1_neighbor_int <? central_peak_int)).

(** [param_.getValue("intensity_type") == "peakarea" ? true : false] *)
Definition intensity_type_area (param_ : Param) : bool :=
  if string_dec (intensity_type param_) "peakarea" then true else false.

(** The peak pushed for a fit that came out OK. *)
Definition picked_peak (intensity_type_area : bool) (fit : TPG D) : Peak D :=
  let output_intensity :=
    if intensity_type_area then area fit
    else computeScaledGaussian (mu fit) (mu fit) (sigma fit) (area fit) in
  mkPeak (mu fit) output_intensity.

(** Whether the loop body takes the [if] at index [i]. *)
Definition is_candidate (input : list (Peak D)) (i : Z) : result bool :=
  '(c, l1, r1, l2, r2) <- read_window input i ;;
  Ok (peak_core c l1 r1 l2 r2).

(** One pass through the loop body followed by the loop's [++i]:
    the next value of [i] and the output peaks so far. *)
Definition scan_step (intensity_type_area : bool) (input : list (Peak D))
           (i : Z) (output : list (Peak D)) : result (Z * list (Peak D)) :=
  '(c, l1, r1, l2, r2) <- read_window input i ;;
  if peak_core c l1 r1 l2 r2 then
    p1 <- at_ input (SizeT.sub i 1) ;;
    p2 <- at_ input i ;;
    p3 <- at_ input (SizeT.add i 1) ;;
    let fit := computeTPG p1 p2 p3 in
    let k := 2%Z in
    let output :=
      if compOK fit then output ++ [picked_peak intensity_type_area fit]
      else output in
    let i := SizeT.sub (SizeT.add i k) 1 in
    Ok (SizeT.add i 1, output)
  else
    Ok (SizeT.add i 1, output).

(** [for (Size i = ...; i < input.size() - 2; ++i)], from the current
    [i]; every pass uses one unit of [fuel].  [pick] gives it one unit
    more than the input has samples. *)
Fixpoint scan (fuel : nat) (intensity_type_area : bool)
         (input : list (Peak D)) (i : Z) (output : list (Peak D))
  : result (list (Peak D)) :=
  if (i <? SizeT.sub (size input) 2)%Z then
    match fuel with
    | O => Err OutOfFuel
    | S fuel' =>
        '(i', output') <- scan_step intensity_type_area input i output ;;
        scan fuel' intensity_type_area input i' output'
    end
  else Ok output.

(** The indices at which that loop runs its body, in order. *)
Fixpoint examined (fuel : nat) (intensity_type_area : bool)
         (input : list (Peak D)) (i : Z) (output : list (Peak D)) : list Z :=
  if (i <? SizeT.sub (size input) 2)%Z then
    match fuel with
    | O => []
    | S fuel' =>
        i :: match scan_step intensity_type_area input i output with
             | Ok (i', output') =>
                 examined fuel' intensity_type_area input i' output'
             | Err _ => []
             end
    end
  else [].

Definition pick (param_ : Param) (input output : MSSpectrum)
  : result MSSpectrum :=
  let output := clear output true in
  let output :=
    mkMSSpectrum (settings input) (meta_info output) (getRT output)
                 (getMSLevel output) (getName output) (peaks output) in
  let output :=
    mkMSSpectrum (settings output) (meta_info input) (getRT output)
                 (getMSLevel output) (getName output) (peaks output) in
  let output :=
    mkMSSpectrum (settings output) (meta_info output) (getRT input)
                 (getMSLevel output) (getName output) (peaks output) in
  let output :=
    mkMSSpectrum (settings output) (meta_info output) (getRT output)
                 (getMSLevel input) (getName output) (peaks output) in
  let output :=
    mkMSSpectrum (settings output) (meta_info output) (getRT output)
                 (getMSLevel output) (getName input) (peaks output) in
  let output :=
    mkMSSpectrum (mkSpectrumSettings PEAKS (settings_data (settings output)))
                 (meta_info output) (getRT output)
                 (getMSLevel output) (getName output) (peaks output) in
  let intensity_type_area := intensity_type_area param_ in
  picked <- scan (S (List.length (peaks input))) intensity_type_area
                 (peaks input) 2 (peaks output) ;;
  Ok (mkMSSpectrum (settings output) (meta_info output) (getRT output)
                   (getMSLevel output) (getName output) picked).

(** *** The experiment driver *)

Definition MSExperiment_clear (e : MSExperiment) (clear_meta_data : bool)
  : MSExperiment :=
  if clear_meta_data then mkMSExperiment new_ExperimentalSettings []
  else mkMSExperiment (experimental_settings e) [].

(** [std::vector::resize] with default-constructed new elements. *)
Definition resize (v : list MSSpectrum) (n : Z) : list MSSpectrum :=
  firstn (Z.to_nat n) v
  ++ repeat MSSpectrum_new (Z.to_nat n - List.length v).

(** The state of the driver's loop. *)
Record DriverState : Type := mkDriverState {
  scan_idx : Z;
  out_spectra : list MSSpectrum;
  progress : Z;
  progress_log : list ProgressEvent
}.

(** One pass through the driver's loop body, then [++scan_idx]. *)
Definition driver_step (param_ : Param) (ms1_only : bool)
           (input : list MSSpectrum) (st : DriverState) : result DriverState :=
  s <- at_ input (scan_idx st) ;;
  out' <- (if ms1_only && negb (getMSLevel s =? 1)%Z then
             assign_at (out_spectra st) (scan_idx st) s
           else
             o <- at_ (out_spectra st) (scan_idx st) ;;
             o' <- pick param_ s o ;;
             assign_at (out_spectra st) (scan_idx st) o') ;;
  let progress := SizeT.add (progress st) 1 in
  Ok (mkDriverState (SizeT.add (scan_idx st) 1) out' progress
                    (progress_log st ++ [setProgress progress])).

Fixpoint driver_loop (fuel : nat) (param_ : Param) (ms1_only : bool)
         (input : list MSSpectrum) (st : DriverState) : result DriverState :=
  if (scan_idx st =? size input)%Z then Ok st
  else match fuel with
       | O => Err OutOfFuel
       | S fuel' =>
           st' <- driver_step param_ ms1_only input st ;;
           driver_loop fuel' param_ ms1_only input st'
       end.

(** The result is the output experiment and the calls the progress
    logger received. *)
Definition pickExperiment (param_ : Param) (input output : MSExperiment)
  : result (MSExperiment * list ProgressEvent) :=
  let output := MSExperiment_clear output true in
  let output := mkMSExperiment (experimental_settings input) (spectra output) in
  let output :=
    mkMSExperiment (experimental_settings output)
                   (resize (spectra output) (size (spectra input))) in
  let ms1_only := ms1_only param_ in
  let progress := 0%Z in
  let log := [startProgress 0 (size (spectra input)) "picking peaks"] in
  st <- driver_loop (List.length (spectra input)) param_ ms1_only
                    (spectra input)
                    (mkDriverState 0 (spectra output) progress log) ;;
  Ok (mkMSExperiment (experimental_settings output) (out_spectra st),
      progress_log st ++ [endProgress]).

End Picker.

(* ================================================================= *)
(** ** What the specification says of the candidate test

    Written from the specification's wording, to be compared with
    [peak_core]: the five intensities exceed 1.0, the four spacings are
    below 1.5 times the smaller of the two spacings next to the centre,
    and the intensities rise strictly towards the centre on both
    flanks. *)

Section CandidateSpec.

Context {D : Type} {ops : DoubleOps D}.
Local Open Scope dbl_scope.

(** The 5-point window centred at [i] lies inside [input]. *)
Definition window_in_bounds (input : list (Peak D)) (i : Z) : Prop :=
  SizeT.representable (List.length input) /\ (2 <= i)%Z /\ (i + 2 < size input)%Z.

Definition lt (a b : D) : Prop := (a <? b) = true.

(** The distance in m/z between two neighbouring samples. *)
Definition spacing (left right : Peak D) : D :=
  dfabs (getMZ right - getMZ left).

Definition minimum (a b : D) : D := if a <? b then a else b.

Definition candidate_apex (l2 l1 c r1 r2 : Peak D) : Prop :=
  let left_of_center := spacing l1 c in
  let left_left := spacing l2 l1 in
  let right_of_center := spacing c r1 in
  let right_right := spacing r1 r2 in
  let min_spacing := minimum left_of_center right_of_center in
  Forall (fun p => lt lit_1_0 (getIntensity p)) [l2; l1; c; r1; r2]
  /\ Forall (fun s => lt s (lit_1_5 * min_spacing))
            [left_of_center; left_left; right_of_center; right_right]
  /\ (lt (getIntensity l2) (getIntensity l1)
      /\ lt (getIntensity l1) (getIntensity c))
  /\ (lt (getIntensity r2) (getIntensity r1)
      /\ lt (getIntensity r1) (getIntensity c)).

End CandidateSpec.

(** A sample of the Gaussian with mean [mu0], standard deviation
    [sigma0] and integral [area0], taken at [x]. *)
Definition gaussian_sample (mu0 sigma0 area0 x : R) : Peak R :=
  mkPeak x (computeScaledGaussian x mu0 sigma0 area0).

(* ================================================================= *)
(** ** What the specification says of the experiment driver

    Written from the specification's wording, to be compared with
    [pickExperiment]: a spectrum passes through unchanged when
    [ms1_only] is set and its level is not 1, and is replaced by its
    [pick] otherwise; the spectra are treated one by one, in order. *)

Fixpoint map_result {A B : Type} (f : A -> result B) (l : list A)
  : result (list B) :=
  match l with
  | [] => Ok []
  | a :: l' => b <- f a ;; bs <- map_result f l' ;; Ok (b :: bs)
  end.

Section DriverSpec.

Context {D : Type} {ops : DoubleOps D} {ext : Collaborators D}.

Definition passes_through (param_ : Param) (s : MSSpectrum) : bool :=
  ms1_only param_ && negb (getMSLevel s =? 1)%Z.

Definition pass_or_pick (param_ : Param) (s : MSSpectrum) : result MSSpectrum :=
  if passes_through param_ s then Ok s else pick param_ s MSSpectrum_new.

End DriverSpec.

(* ================================================================= *)
(** ** Objects and references

    [pick] and [pickExperiment] take their input by const reference and
    their output by reference, and nothing keeps a caller from passing
    one object as both.  Here the objects live in a store, a reference
    is a way to read and to assign an object of the store, and the two
    functions are written once more, statement by statement, over the
    store.  [pick] and [pickExperiment] above are what these give when
    the two references are to separate objects. *)

(** A reference to an [A] in a store [H].  Reading and assigning can
    fail: a reference made with [operator[]] may lie outside its
    vector. *)
Record Ref (H A : Type) : Type := mkRef {
  load : H -> result A;
  store : H -> A -> result H
}.

(** A store of objects of one type, by address. *)
Definition Objects (A : Type) : Type := nat -> A.

Definition update {A : Type} (h : Objects A) (r : nat) (v : A) : Objects A :=
  fun r' => if (r' =? r)%nat then v else h r'.

(** The reference to the object at address [r]. *)
Definition object {A : Type} (r : nat) : Ref (Objects A) A :=
  mkRef (fun h => Ok (h r)) (fun h v => Ok (update h r v)).

Section References.

Context {D : Type} {ops : DoubleOps D} {ext : Collaborators D}.
Context {H : Type}.

(** A statement that changes the object behind [r]. *)
Definition modify {A : Type} (r : Ref H A) (f : A -> A) (h : H) : result H :=
  a <- load r h ;; store r h (f a).

(** [experiment[i]] *)
Definition element (experiment : Ref H MSExperiment) (i : Z)
  : Ref H MSSpectrum :=
  mkRef (fun h => e <- load experiment h ;; at_ (spectra e) i)
        (fun h s =>
           e <- load experiment h ;;
           v <- assign_at (spectra e) i s ;;
           store experiment h (mkMSExperiment (experimental_settings e) v)).

Definition push_back (p : Peak D) (s : MSSpectrum) : MSSpectrum :=
  mkMSSpectrum (settings s) (meta_info s) (getRT s) (getMSLevel s) (getName s)
               (peaks s ++ [p]).

(** The loop body of [pick] and its [++i], reading through [input] and
    pushing through [output]. *)
Definition scan_step_ref (intensity_type_area : bool)
           (input output : Ref H MSSpectrum) (i : Z) (h : H)
  : result (Z * H) :=
  s <- load input h ;;
  '(c, l1, r1, l2, r2) <- read_window (peaks s) i ;;
  if peak_core c l1 r1 l2 r2 then
    p1 <- at_ (peaks s) (SizeT.sub i 1) ;;
    p2 <- at_ (peaks s) i ;;
    p3 <- at_ (peaks s) (SizeT.add i 1) ;;
    let fit := computeTPG p1 p2 p3 in
    let k := 2%Z in
    h <- (if compOK fit
          then modify output (push_back (picked_peak intensity_type_area fit)) h
          else Ok h) ;;
    let i := SizeT.sub (SizeT.add i k) 1 in
    Ok (SizeT.add i 1, h)
  else
    Ok (SizeT.add i 1, h).

(** The loop of [pick]; [input.size()] is read on every pass. *)
Fixpoint scan_ref (fuel : nat) (intensity_type_area : bool)
         (input output : Ref H MSSpectrum) (i : Z) (h : H) : result H :=
  s <- load input h ;;
  if (i <? SizeT.sub (size (peaks s)) 2)%Z then
    match fuel with
    | O => Err OutOfFuel
    | S fuel' =>
        '(i', h') <- scan_step_ref intensity_type_area input output i h ;;
        scan_ref fuel' intensity_type_area input output i' h'
    end
  else Ok h.

(** [pick(input, output)].  The loop budget is the one of [pick], taken
    from the input as it is on entry. *)
Definition pick_ref (param_ : Param) (input output : Ref H MSSpectrum) (h : H)
  : result H :=
  s <- load input h ;;
  let fuel := S (List.length (peaks s)) in
  (* output.clear(true) *)
  h <- modify output (fun o => clear o true) h ;;
  (* output.SpectrumSettings::operator=(input) *)
  s <- load input h ;;
  h <- modify output
         (fun o => mkMSSpectrum (settings s) (meta_info o) (getRT o)
                                (getMSLevel o) (getName o) (peaks o)) h ;;
  (* output.MetaInfoInterface::operator=(input) *)
  s <- load input h ;;
  h <- modify output
         (fun o => mkMSSpectrum (settings o) (meta_info s) (getRT o)
                                (getMSLevel o) (getName o) (peaks o)) h ;;
  (* output.setRT(input.getRT()) *)
  s <- load input h ;;
  h <- modify output
         (fun o => mkMSSpectrum (settings o) (meta_info o) (getRT s)
                                (getMSLevel o) (getName o) (peaks o)) h ;;
  (* output.setMSLevel(input.getMSLevel()) *)
  s <- load input h ;;
  h <- modify output
         (fun o => mkMSSpectrum (settings o) (meta_info o) (getRT o)
                                (getMSLevel s) (getName o) (peaks o)) h ;;
  (* output.setName(input.getName()) *)
  s <- load input h ;;
  h <- modify output
         (fun o => mkMSSpectrum (settings o) (meta_info o) (getRT o)
                                (getMSLevel o) (getName s) (peaks o)) h ;;
  (* output.setType(SpectrumSettings::PEAKS) *)
  h <- modify output
         (fun o => mkMSSpectrum
                     (mkSpectrumSettings PEAKS (settings_data (settings o)))
                     (meta_info o) (getRT o) (getMSLevel o) (getName o)
                     (peaks o)) h ;;
  let intensity_type_area := intensity_type_area param_ in
  scan_ref fuel intensity_type_area input output 2 h.

(** The state of the driver's loop over a store. *)
Record DriverRefState : Type := mkDriverRefState {
  ref_scan_idx : Z;
  ref_store : H;
  ref_progress : Z;
  ref_progress_log : list ProgressEvent
}.

(** One pass through the driver's loop body, then [++scan_idx]. *)
Definition driver_step_ref (param_ : Param) (ms1_only : bool)
           (input output : Ref H MSExperiment) (st : DriverRefState)
  : result DriverRefState :=
  s <- load (element input (ref_scan_idx st)) (ref_store st) ;;
  h <- (if ms1_only && negb (getMSLevel s =? 1)%Z then
          (* output[scan_idx] = input[scan_idx] *)
          s <- load (element input (ref_scan_idx st)) (ref_store st) ;;
          store (element output (ref_scan_idx st)) (ref_store st) s
        else
          pick_ref param_ (element input (ref_scan_idx st))
                   (element output (ref_scan_idx st)) (ref_store st)) ;;
  let progress := SizeT.add (ref_progress st) 1 in
  Ok (mkDriverRefState (SizeT.add (ref_scan_idx st) 1) h progress
                       (ref_progress_log st ++ [setProgress progress])).

(** The driver's loop; [input.size()] is read on every pass. *)
Fixpoint driver_loop_ref (fuel : nat) (param_ : Param) (ms1_only : bool)
         (input output : Ref H MSExperiment) (st : DriverRefState)
  : result DriverRefState :=
  e <- load input (ref_store st) ;;
  if (ref_scan_idx st =? size (spectra e))%Z then Ok st
  else match fuel with
       | O => Err OutOfFuel
       | S fuel' =>
           st' <- driver_step_ref param_ ms1_only input output st ;;
           driver_loop_ref fuel' param_ ms1_only input output st'
       end.

(** [pickExperiment(input, output)]: the store it leaves and the calls
    the progress logger received.  The loop budget is the one of
    [pickExperiment], taken from the input as it is on entry. *)
Definition pickExperiment_ref (param_ : Param)
           (input output : Ref H MSExperiment) (h : H)
  : result (H * list ProgressEvent) :=
  e <- load input h ;;
  let fuel := List.length (spectra e) in
  (* output.clear(true) *)
  h <- modify output (fun o => MSExperiment_clear o true) h ;;
  (* static_cast<ExperimentalSettings&>(output) = input *)
  e <- load input h ;;
  h <- modify output
         (fun o => mkMSExperiment (experimental_settings e) (spectra o)) h ;;
  (* output.resize(input.size()) *)
  e <- load input h ;;
  h <- modify output
         (fun o => mkMSExperiment (experimental_settings o)
                                  (resize (spectra o) (size (spectra e)))) h ;;
  let ms1_only := ms1_only param_ in
  let progress := 0%Z in
  e <- load input h ;;
  let log := [startProgress 0 (size (spectra e)) "picking peaks"] in
  st <- driver_loop_ref fuel param_ ms1_only input output
                        (mkDriverRefState 0 h progress log) ;;
  Ok (ref_store st, ref_progress_log st ++ [endProgress]).

End References.

(** The real number a binary64 value stands for (0 for the values
    that are not finite). *)
Definition real_of_float (f : float) : R :=
  match Prim2SF f with
  | S754_finite s m e =>
      let r := if (e <? 0)%Z then (IZR (Zpos m) / IZR (2 ^ (- e)))%R
               else (IZR (Zpos m) * IZR (2 ^ e))%R in
      if s then (- r)%R else r
  | _ => 0%R
  end.

Definition real_peak (p : Peak float) : Peak R :=
  mkPeak (real_of_float (getMZ p)) (real_of_float (getIntensity p)).

(* ================================================================= *)
(** ** A libm to run the model with

    The theorems on binary64 hold for every [Libm].  To evaluate the
    model on concrete spectra one is needed: this one follows C99
    Annex F on the special values and approximates the ordinary ones
    by series; its ordinary values are those of no particular C
    library. *)

Module RefLibm.

Local Open Scope float_scope.

Definition ln2_hi : float := 0x1.62e42fee00000p-1.
Definition ln2_lo : float := 0x1.a39ef35793c76p-33.
Definition inv_ln2 : float := 0x1.71547652b82fep+0.
Definition sqrt_half : float := 0x1.6a09e667f3bcdp-1.
Definition rint_magic : float := 0x1.8p52.

(** Round to the nearest integer. *)
Definition rint (x : float) : float :=
  if abs x <? 0x1p51 then (x + rint_magic) - rint_magic else x.

(** The integer value of an integral float. *)
Definition to_Z (x : float) : Z :=
  let (m, e) := Z.frexp (abs x) in
  let n := Uint63.to_Z (normfr_mantissa m) in
  let z := Z.shiftl n (e - 53) in
  if x <? 0 then Z.opp z else z.

Fixpoint horner (cs : list float) (x : float) : float :=
  match cs with
  | [] => 0
  | c :: cs' => c + x * horner cs' x
  end.

(** [1/0!; 1/1!; 1/2!; ...] and [1/1; 1/3; 1/5; ...] *)
Fixpoint inv_factorials (n : nat) (k acc : float) : list float :=
  match n with
  | O => []
  | S n' => acc :: inv_factorials n' (k + 1) (acc / k)
  end.

Fixpoint inv_odds (n : nat) (k : float) : list float :=
  match n with
  | O => []
  | S n' => (1 / k) :: inv_odds n' (k + 2)
  end.

Definition exp (x : float) : float :=
  if is_nan x then nan
  else if 0x1.62e42fefa39efp+9 <? x then infinity
  else if x <? -0x1.74910d52d3051p+9 then 0
  else
    let k := rint (x * inv_ln2) in
    let r := (x - k * ln2_hi) - k * ln2_lo in
    Z.ldexp (horner (inv_factorials 16 1 1) r) (to_Z k).

Definition log (x : float) : float :=
  if is_nan x then nan
  else if x <? 0 then nan
  else if x =? 0 then neg_infinity
  else if x =? infinity then infinity
  else
    let (m, e) := Z.frexp x in
    let (m, e) := if m <? sqrt_half then (2 * m, (e - 1)%Z) else (m, e) in
    let f := m - 1 in
    let s := f / (2 + f) in
    let k := if (e <? 0)%Z then - of_uint63 (Uint63.of_Z (- e))
             else of_uint63 (Uint63.of_Z e) in
    (k * ln2_hi) + ((k * ln2_lo) + 2 * (s * horner (inv_odds 14 1) (s * s))).

Definition is_integer (y : float) : bool := is_finite y && (rint y =? y).

Definition is_odd (y : float) : bool :=
  is_integer y && negb (is_integer (y / 2)).

Definition pow (x y : float) : float :=
  if y =? 0 then 1
  else if x =? 1 then 1
  else if is_nan x || is_nan y then nan
  else if x =? 0 then
    if y <? 0 then (if is_odd y then 1 / x else infinity)
    else (if is_odd y then x else 0)
  else if 0 <? x then exp (y * log x)
  else if x =? neg_infinity then
    if y <? 0 then (if is_odd y then neg_zero else 0)
    else (if is_odd y then neg_infinity else infinity)
  else if is_integer y then
    (if is_odd y then - exp (y * log (- x)) else exp (y * log (- x)))
  else if is_infinity y then
    (if x =? -1 then 1 else exp (y * log (- x)))
  else nan.

Definition libm : Libm := Build_Libm log pow exp.

End RefLibm.

(** Binary64 with that libm, and collaborators whose state is text. *)
Definition ieee : DoubleOps float := @binary64 RefLibm.libm.

Definition text_collaborators : Collaborators float := {|
  SettingsData := string;
  MetaInfoInterface := list (string * string);
  ExperimentalSettings := string;
  new_SettingsData := EmptyString;
  new_type := UNKNOWN;
  new_MetaInfoInterface := [];
  new_ExperimentalSettings := EmptyString;
  new_RT := (-1)%float;
  new_MSLevel := 1%Z;
  new_Name := EmptyString
|}.

(** *** Spectra to run the model on *)

Module Samples.

Local Open Scope float_scope.
Local Open Scope string_scope.
#[local] Existing Instance ieee.
#[local] Existing Instance text_collaborators.

Definition spectrum_of (type : SpectrumType) (level : Z)
           (samples : list (Peak float)) : MSSpectrum :=
  mkMSSpectrum (mkSpectrumSettings type "scan=17") [("base peak", "50")]
               1234.5 level "profile" samples.

(** One clean peak with its apex at index 2. *)
Definition one_peak : list (Peak float) :=
  [ mkPeak 100 2; mkPeak 100.125 5; mkPeak 100.25 50;
    mkPeak 100.375 5; mkPeak 100.5 2; mkPeak 100.625 1.5 ].

(** The same shape at m/z 1000 with large intensities: the powers
    inside the fit leave the range of binary64. *)
Definition tall1 : Peak float := mkPeak 1000.125 1000.
Definition tall2 : Peak float := mkPeak 1000.25 100000.
Definition tall3 : Peak float := mkPeak 1000.375 1000.

Definition tall_peak : list (Peak float) :=
  [ mkPeak 1000 10; tall1; tall2; tall3; mkPeak 1000.5 10 ].

(** Three samples on a horizontal line: collinear in (x, log y). *)
Definition flat1 : Peak float := mkPeak 1 1.
Definition flat2 : Peak float := mkPeak 2 1.
Definition flat3 : Peak float := mkPeak 3 1.

Definition empty_spectrum : MSSpectrum := spectrum_of RAWDATA 1 [].
Definition short_spectrum : MSSpectrum :=
  spectrum_of RAWDATA 1 [mkPeak 100 2; mkPeak 100.125 5; mkPeak 100.25 50].
Definition raw_spectrum : MSSpectrum := spectrum_of RAWDATA 1 one_peak.
Definition tall_spectrum : MSSpectrum := spectrum_of RAWDATA 1 tall_peak.
Definition fragment_spectrum : MSSpectrum := spectrum_of RAWDATA 2 one_peak.

Definition area_param : Param := mkParam "peakarea" true.
Definition height_param : Param := mkParam "peakheight" true.

Definition experiment : MSExperiment :=
  mkMSExperiment "run 1" [raw_spectrum; fragment_spectrum; short_spectrum].

(** Output objects that were in use before the call. *)
Definition stale_spectrum : MSSpectrum :=
  spectrum_of PEAKS 3 [mkPeak 1 1].
Definition stale_experiment : MSExperiment :=
  mkMSExperiment "old" [stale_spectrum].

End Samples.

(* ================================================================= *)
(** ** The comparator, and what the loop body pushes *)

(** [CmpPeakByIntensity::operator()] *)
Definition CmpPeakByIntensity {D : Type} {ops : DoubleOps D} (x y : Peak D)
  : bool :=
  (getIntensity x >? getIntensity y)%dbl.

(** The peak that the loop body pushes at index [i]: the window there
    passes the candidate test, the fit of its three central samples is
    valid, and [p] is the peak made from that fit. *)
Definition accepted_fit {D : Type} {ops : DoubleOps D} (mode : bool)
           (input : list (Peak D)) (i : Z) (p : Peak D) : Prop :=
  exists c l1 r1 l2 r2 : Peak D,
    read_window input i = Ok (c, l1, r1, l2, r2) /\
    peak_core c l1 r1 l2 r2 = true /\
    compOK (computeTPG l1 c r1) = true /\
    p = picked_peak mode (computeTPG l1 c r1).

(** *** Further spectra to run the model on *)

Module MoreSamples.

Local Open Scope string_scope.

(** In binary64: a baseline, a window with a NaN intensity, and peaks
    to compare. *)
Definition baseline : list (Peak float) :=
  [ mkPeak 100 0.5; mkPeak 100.125 1; mkPeak 100.25 0.75;
    mkPeak 100.375 0; mkPeak 100.5 0.25; mkPeak 100.625 1 ]%float.

Definition baseline_spectrum : @MSSpectrum float text_collaborators :=
  Samples.spectrum_of RAWDATA 1 baseline.

Definition nan_window : list (Peak float) :=
  [ mkPeak 100 2; mkPeak 100.125 5; mkPeak 100.25 50;
    mkPeak 100.375 5; mkPeak 100.5 nan; mkPeak 100.625 1.5 ]%float.

Definition strong : Peak float := (mkPeak 100 3)%float.
Definition medium : Peak float := (mkPeak 101 2)%float.
Definition weak : Peak float := (mkPeak 102 1)%float.
Definition broken : Peak float := (mkPeak 103 nan)%float.

(** Stores: two with the spectrum [Samples.raw_spectrum] at different
    addresses, two with the experiment [Samples.experiment], and an
    experiment whose second spectrum has no sample. *)
Definition spectrum_store : Objects (@MSSpectrum float text_collaborators) :=
  fun r => if (r =? 0)%nat then Samples.raw_spectrum
           else Samples.stale_spectrum.

Definition other_spectrum_store
  : Objects (@MSSpectrum float text_collaborators) :=
  fun r => if (r =? 3)%nat then Samples.raw_spectrum
           else Samples.empty_spectrum.

Definition experiment_store
  : Objects (@MSExperiment float text_collaborators) :=
  fun r => if (r =? 0)%nat then Samples.experiment
           else Samples.stale_experiment.

Definition other_experiment_store
  : Objects (@MSExperiment float text_collaborators) :=
  fun r => if (r =? 3)%nat then Samples.experiment
           else @mkMSExperiment float text_collaborators "none"%string [].

Definition gappy_experiment : @MSExperiment float text_collaborators :=
  @mkMSExperiment float text_collaborators "run 2"%string
    [Samples.raw_spectrum; Samples.empty_spectrum].

End MoreSamples.

(* ================================================================= *)
(** ** Basic facts: sizes and element access *)

Lemma modulus_value : SizeT.modulus = 18446744073709551616%Z.
Proof. reflexivity. Qed.

Lemma wrap_small (z : Z) :
  (0 <= z < SizeT.modulus)%Z -> SizeT.wrap z = z.
Proof. intros H. unfold SizeT.wrap. now apply Z.mod_small. Qed.

Lemma sub_small (a b : Z) :
  (0 <= a - b < SizeT.modulus)%Z -> SizeT.sub a b = (a - b)%Z.
Proof. intros H. unfold SizeT.sub. now apply wrap_small. Qed.

Lemma add_small (a b : Z) :
  (0 <= a + b < SizeT.modulus)%Z -> SizeT.add a b = (a + b)%Z.
Proof. intros H. unfold SizeT.add. now apply wrap_small. Qed.

(** [size() - 2] on a vector of fewer than two elements wraps around. *)
Lemma sub_underflow (n : Z) :
  (0 <= n < 2)%Z -> SizeT.sub n 2 = (SizeT.modulus - 2 + n)%Z.
Proof.
  intros H. unfold SizeT.sub, SizeT.wrap.
  replace (n - 2)%Z with ((SizeT.modulus - 2 + n) + (-1) * SizeT.modulus)%Z by ring.
  rewrite Z.mod_add by (rewrite modulus_value; lia).
  apply Z.mod_small. rewrite modulus_value. lia.
Qed.

Section Access.

Context {A : Type}.

Lemma at_Ok (v : list A) (i : Z) (a : A) :
  at_ v i = Ok a <-> (0 <= i)%Z /\ nth_error v (Z.to_nat i) = Some a.
Proof.
  unfold at_. destruct (Z.ltb_spec i 0) as [Hneg | Hpos].
  - split; [discriminate | lia].
  - destruct (nth_error v (Z.to_nat i)) as [x |]; split.
    + intros [= ->]. auto.
    + intros [_ [= ->]]. reflexivity.
    + discriminate.
    + intros [_ [=]].
Qed.

Lemma at_in_range (v : list A) (i : Z) :
  (0 <= i < Z.of_nat (List.length v))%Z -> exists a, at_ v i = Ok a.
Proof.
  intros H. destruct (nth_error v (Z.to_nat i)) as [a |] eqn:E.
  - exists a. apply at_Ok. split; [lia | exact E].
  - apply nth_error_None in E. lia.
Qed.

Lemma at_out_of_range (v : list A) (i : Z) :
  (Z.of_nat (List.length v) <= i)%Z -> at_ v i = Err OutOfRange.
Proof.
  intros H. unfold at_. destruct (Z.ltb_spec i 0) as [_ | _]; [reflexivity |].
  destruct (nth_error v (Z.to_nat i)) as [a |] eqn:E; [| reflexivity].
  assert (Hlt : (Z.to_nat i < List.length v)%nat)
    by (apply nth_error_Some; congruence).
  lia.
Qed.

End Access.

(* ================================================================= *)
(** ** The scan over one spectrum *)

Section PickerFacts.

Context {D : Type} {ops : DoubleOps D}.

Lemma read_window_Ok (input : list (Peak D)) (i : Z) (c l1 r1 l2 r2 : Peak D) :
  read_window input i = Ok (c, l1, r1, l2, r2) <->
  at_ input i = Ok c /\ at_ input (SizeT.sub i 1) = Ok l1 /\
  at_ input (SizeT.add i 1) = Ok r1 /\ at_ input (SizeT.sub i 2) = Ok l2 /\
  at_ input (SizeT.add i 2) = Ok r2.
Proof.
  unfold read_window.
  destruct (at_ input i) as [c' | e]; simpl;
    [| split; [discriminate | intros [H _]; discriminate]].
  destruct (at_ input (SizeT.sub i 1)) as [l1' | e]; simpl;
    [| split; [discriminate | intros (_ & H & _); discriminate]].
  destruct (at_ input (SizeT.add i 1)) as [r1' | e]; simpl;
    [| split; [discriminate | intros (_ & _ & H & _); discriminate]].
  destruct (at_ input (SizeT.sub i 2)) as [l2' | e]; simpl;
    [| split; [discriminate | intros (_ & _ & _ & H & _); discriminate]].
  destruct (at_ input (SizeT.add i 2)) as [r2' | e]; simpl;
    [| split; [discriminate | intros (_ & _ & _ & _ & H); discriminate]].
  split.
  - intros [= -> -> -> -> ->]. repeat split; reflexivity.
  - intros ([= ->] & [= ->] & [= ->] & [= ->] & [= ->]). reflexivity.
Qed.

(** Inside the vector the five reads succeed, and they return the
    samples at [i-2 .. i+2]. *)
Lemma read_window_in_bounds (input : list (Peak D)) (i : Z) :
  window_in_bounds input i ->
  exists l2 l1 c r1 r2,
    nth_error input (Z.to_nat (i - 2)) = Some l2 /\
    nth_error input (Z.to_nat (i - 1)) = Some l1 /\
    nth_error input (Z.to_nat i) = Some c /\
    nth_error input (Z.to_nat (i + 1)) = Some r1 /\
    nth_error input (Z.to_nat (i + 2)) = Some r2 /\
    read_window input i = Ok (c, l1, r1, l2, r2).
Proof.
  intros (Hrep & Hlo & Hhi). unfold SizeT.representable in Hrep.
  unfold size in Hhi.
  assert (Hget : forall j, (0 <= j < Z.of_nat (List.length input))%Z ->
                           exists p, nth_error input (Z.to_nat j) = Some p
                                     /\ at_ input j = Ok p).
  { intros j Hj. destruct (at_in_range input Hj) as [p Hp].
    exists p. split; [apply at_Ok in Hp; tauto | exact Hp]. }
  destruct (Hget (i - 2)%Z) as (l2 & Hl2 & Al2); [lia |].
  destruct (Hget (i - 1)%Z) as (l1 & Hl1 & Al1); [lia |].
  destruct (Hget i) as (c & Hc & Ac); [lia |].
  destruct (Hget (i + 1)%Z) as (r1 & Hr1 & Ar1); [lia |].
  destruct (Hget (i + 2)%Z) as (r2 & Hr2 & Ar2); [lia |].
  exists l2, l1, c, r1, r2. repeat (split; [assumption |]).
  apply read_window_Ok.
  rewrite !sub_small, !add_small by lia. tauto.
Qed.

(** What one pass does, once the window has been read. *)
Lemma scan_step_window (mode : bool) (input : list (Peak D)) (i : Z)
      (output : list (Peak D)) (c l1 r1 l2 r2 : Peak D) :
  (0 <= i)%Z -> (i + 2 < SizeT.modulus)%Z ->
  read_window input i = Ok (c, l1, r1, l2, r2) ->
  scan_step mode input i output =
  Ok (if peak_core c l1 r1 l2 r2
      then ((i + 2)%Z,
            if compOK (computeTPG l1 c r1)
            then output ++ [picked_peak mode (computeTPG l1 c r1)]
            else output)
      else ((i + 1)%Z, output)).
Proof.
  intros Hlo Hhi Hw. unfold scan_step. rewrite Hw. simpl.
  apply read_window_Ok in Hw. destruct Hw as (Hc & Hl1 & Hr1 & _ & _).
  destruct (peak_core c l1 r1 l2 r2).
  - rewrite Hl1, Hc, Hr1. simpl.
    rewrite (add_small i 2) by lia.
    rewrite (sub_small (i + 2) 1) by lia.
    rewrite add_small by lia.
    do 2 f_equal. lia.
  - rewrite add_small by lia. reflexivity.
Qed.

Lemma is_candidate_window (input : list (Peak D)) (i : Z)
      (c l1 r1 l2 r2 : Peak D) :
  read_window input i = Ok (c, l1, r1, l2, r2) ->
  is_candidate input i = Ok (peak_core c l1 r1 l2 r2).
Proof. intros Hw. unfold is_candidate. rewrite Hw. reflexivity. Qed.

(** The loop returns: with a budget that covers the remaining
    indices it never stops for lack of fuel, and inside the vector no
    read fails. *)
Lemma scan_returns (mode : bool) (input : list (Peak D)) :
  SizeT.representable (List.length input) ->
  (2 <= List.length input)%nat ->
  forall (fuel : nat) (i : Z) (output : list (Peak D)),
    (2 <= i)%Z ->
    (size input - i <= Z.of_nat fuel)%Z ->
    exists picked, scan fuel mode input i output = Ok picked.
Proof.
  intros Hrep Hlen. unfold SizeT.representable in Hrep.
  assert (Hbound : SizeT.sub (size input) 2 = (size input - 2)%Z).
  { apply sub_small. unfold size. lia. }
  induction fuel as [| fuel IH]; intros i output Hi Hfuel.
  - exists output. simpl. rewrite Hbound.
    destruct (Z.ltb_spec i (size input - 2)); [lia | reflexivity].
  - simpl. rewrite Hbound.
    destruct (Z.ltb_spec i (size input - 2)) as [Hlt | Hge];
      [| exists output; reflexivity].
    assert (Hin : window_in_bounds input i).
    { unfold window_in_bounds, SizeT.representable. lia. }
    destruct (read_window_in_bounds Hin)
      as (l2 & l1 & c & r1 & r2 & _ & _ & _ & _ & _ & Hw).
    assert (Hstep := @scan_step_window mode input i output c l1 r1 l2 r2).
    rewrite Hstep; [| lia | unfold size in *; lia | exact Hw].
    destruct (peak_core c l1 r1 l2 r2); simpl; apply IH; lia.
Qed.

(** With no index to examine the loop returns its output unchanged. *)
Lemma scan_nothing (fuel : nat) (mode : bool) (input : list (Peak D))
      (i : Z) (output : list (Peak D)) :
  (SizeT.sub (size input) 2 <= i)%Z ->
  scan fuel mode input i output = Ok output.
Proof.
  intros H. destruct fuel; simpl;
    destruct (Z.ltb_spec i (SizeT.sub (size input) 2)); try lia; reflexivity.
Qed.

End PickerFacts.
(* ================================================================= *)
(** ** [pick]: metadata, short spectra, the candidate test, the step *)

Section PickFacts.

Context {D : Type} {ops : DoubleOps D} {ext : Collaborators D}.

(** [pick] is the scan from index 2 over the input's samples, started
    on an empty output, under the metadata written at its head. *)
Lemma pick_unfold (param_ : Param) (input output : MSSpectrum) :
  pick param_ input output =
  (picked <- scan (S (List.length (peaks input))) (intensity_type_area param_)
                  (peaks input) 2 [] ;;
   Ok (mkMSSpectrum
         (mkSpectrumSettings PEAKS (settings_data (settings input)))
         (meta_info input) (getRT input) (getMSLevel input) (getName input)
         picked)).
Proof. reflexivity. Qed.

Lemma intensity_type_area_iff (param_ : Param) :
  intensity_type_area param_ = true <-> intensity_type param_ = "peakarea"%string.
Proof.
  unfold intensity_type_area.
  destruct (string_dec (intensity_type param_) "peakarea"); split;
    auto; discriminate.
Qed.

(** C1, as amended.  On every spectrum with at least two samples
    [pick] returns, and its output has the input's retention time, MS
    level, name, meta information and settings other than the type
    tag; the type tag of the output is [PEAKS], whatever the input's
    was. *)
Theorem pick_metadata (param_ : Param) (input output : MSSpectrum) :
  SizeT.representable (List.length (peaks input)) ->
  (2 <= List.length (peaks input))%nat ->
  exists out,
    pick param_ input output = Ok out /\
    getRT out = getRT input /\
    getMSLevel out = getMSLevel input /\
    getName out = getName input /\
    meta_info out = meta_info input /\
    settings_data (settings out) = settings_data (settings input) /\
    getType (settings out) = PEAKS.
Proof.
  intros Hrep Hlen. rewrite pick_unfold.
  destruct (@scan_returns D ops (intensity_type_area param_) (peaks input)
              Hrep Hlen (S (List.length (peaks input))) 2%Z [])
    as [picked Hscan]; [lia | unfold size; lia |].
  rewrite Hscan. simpl. eexists. split; [reflexivity |].
  simpl. repeat split; reflexivity.
Qed.

(** C3.  On a spectrum with no sample or one sample, [input.size() - 2]
    wraps around, the loop is entered at [i = 2], and the read of
    [input[2]] is outside the vector. *)
Theorem pick_short_out_of_range (param_ : Param) (input output : MSSpectrum) :
  (List.length (peaks input) < 2)%nat ->
  pick param_ input output = Err OutOfRange.
Proof.
  intros Hlen. rewrite pick_unfold. simpl scan.
  rewrite sub_underflow by (unfold size; lia).
  destruct (Z.ltb_spec 2 (SizeT.modulus - 2 + size (peaks input))) as [_ | H];
    [| rewrite modulus_value in H; unfold size in H; lia].
  unfold scan_step, read_window.
  rewrite (@at_out_of_range _ (peaks input) 2) by lia.
  reflexivity.
Qed.

(** With two, three or four samples the loop has no index to examine:
    zero peaks under the copied metadata. *)
Lemma pick_no_window (param_ : Param) (input output : MSSpectrum) :
  (2 <= List.length (peaks input) <= 4)%nat ->
  pick param_ input output =
  Ok (mkMSSpectrum
        (mkSpectrumSettings PEAKS (settings_data (settings input)))
        (meta_info input) (getRT input) (getMSLevel input) (getName input)
        []).
Proof.
  intros Hlen. rewrite pick_unfold, scan_nothing; [reflexivity |].
  rewrite sub_small; unfold size; rewrite ?modulus_value; lia.
Qed.

End PickFacts.

Section CandidateFacts.

Context {D : Type} {ops : DoubleOps D}.

Lemma peak_core_candidate_apex (c l1 r1 l2 r2 : Peak D) :
  peak_core c l1 r1 l2 r2 = true <-> candidate_apex l2 l1 c r1 r2.
Proof.
  unfold peak_core, candidate_apex, min_spacing, minimum, spacing, lt.
  cbv zeta. rewrite !andb_true_iff.
  split.
  - intros ((((((((((Hc & Hl1) & Hl2) & Hr1) & Hr2) & Sl1) & Sl2)
               & Al2 & Al1) & Sr1) & Sr2) & Ar2 & Ar1).
    repeat split; try assumption; repeat constructor; assumption.
  - intros (Hint & Hsp & (Al2 & Al1) & (Ar2 & Ar1)).
    inversion Hint as [| ? ? Hl2 Hint1]; subst.
    inversion Hint1 as [| ? ? Hl1 Hint2]; subst.
    inversion Hint2 as [| ? ? Hc Hint3]; subst.
    inversion Hint3 as [| ? ? Hr1 Hint4]; subst.
    inversion Hint4 as [| ? ? Hr2 _]; subst.
    inversion Hsp as [| ? ? Sl1 Hsp1]; subst.
    inversion Hsp1 as [| ? ? Sl2 Hsp2]; subst.
    inversion Hsp2 as [| ? ? Sr1 Hsp3]; subst.
    inversion Hsp3 as [| ? ? Sr2 _]; subst.
    repeat split; assumption.
Qed.

(** C4.  At an index whose 5-point window is inside the spectrum the
    candidate test succeeds exactly when the five intensities at
    [i-2 .. i+2] exceed 1.0, the four spacings are below 1.5 times
    the minimum of the two spacings next to the centre, and the
    intensities rise strictly towards the centre on both flanks. *)
Theorem candidate_iff_shape (input : list (Peak D)) (i : Z) :
  window_in_bounds input i ->
  exists l2 l1 c r1 r2 accepted,
    nth_error input (Z.to_nat (i - 2)) = Some l2 /\
    nth_error input (Z.to_nat (i - 1)) = Some l1 /\
    nth_error input (Z.to_nat i) = Some c /\
    nth_error input (Z.to_nat (i + 1)) = Some r1 /\
    nth_error input (Z.to_nat (i + 2)) = Some r2 /\
    is_candidate input i = Ok accepted /\
    (accepted = true <-> candidate_apex l2 l1 c r1 r2).
Proof.
  intros Hin.
  destruct (read_window_in_bounds Hin)
    as (l2 & l1 & c & r1 & r2 & H2 & H1 & H0 & H3 & H4 & Hw).
  exists l2, l1, c, r1, r2, (peak_core c l1 r1 l2 r2).
  repeat (split; [assumption |]).
  split; [apply is_candidate_window, Hw | apply peak_core_candidate_apex].
Qed.

(** Every index the loop examines from [i] on is at least [i]. *)
Lemma examined_from (mode : bool) (input : list (Peak D)) :
  SizeT.representable (List.length input) ->
  (2 <= List.length input)%nat ->
  forall (fuel : nat) (i : Z) (output : list (Peak D)),
    (2 <= i)%Z ->
    Forall (fun j => (i <= j)%Z) (examined fuel mode input i output).
Proof.
  intros Hrep Hlen. unfold SizeT.representable in Hrep.
  assert (Hbound : SizeT.sub (size input) 2 = (size input - 2)%Z).
  { apply sub_small. unfold size. lia. }
  induction fuel as [| fuel IH]; intros i output Hi; simpl; rewrite Hbound.
  - destruct (i <? size input - 2)%Z; constructor.
  - destruct (Z.ltb_spec i (size input - 2)) as [Hlt | Hge]; [| constructor].
    constructor; [lia |].
    assert (Hin : window_in_bounds input i).
    { unfold window_in_bounds, SizeT.representable. lia. }
    destruct (read_window_in_bounds Hin)
      as (l2 & l1 & c & r1 & r2 & _ & _ & _ & _ & _ & Hw).
    assert (Hstep := @scan_step_window D ops mode input i output c l1 r1 l2 r2).
    rewrite Hstep; [| lia | unfold size in *; lia | exact Hw].
    destruct (peak_core c l1 r1 l2 r2);
      (eapply Forall_impl; [| apply IH; lia]); cbv beta; intros; lia.
Qed.

(** C5.  One pass at an index inside the spectrum moves the scan to
    [i + 2] when the index is accepted as a candidate, whether or not
    a peak is pushed, and to [i + 1] when it is rejected; the loop
    goes on from there, and no index below that one is examined
    afterwards. *)
Theorem scan_advance (mode : bool) (input : list (Peak D)) (i : Z)
        (output : list (Peak D)) (fuel : nat) :
  window_in_bounds input i ->
  exists (accepted : bool) (output' : list (Peak D)),
    let next := if accepted then (i + 2)%Z else (i + 1)%Z in
    is_candidate input i = Ok accepted /\
    scan_step mode input i output = Ok (next, output') /\
    (accepted = false -> output' = output) /\
    scan (S fuel) mode input i output = scan fuel mode input next output' /\
    examined (S fuel) mode input i output
    = i :: examined fuel mode input next output' /\
    Forall (fun j => (next <= j)%Z) (examined fuel mode input next output').
Proof.
  intros Hin.
  destruct (read_window_in_bounds Hin)
    as (l2 & l1 & c & r1 & r2 & _ & _ & _ & _ & _ & Hw).
  destruct Hin as (Hrep & Hlo & Hhi).
  assert (Hrep' := Hrep).
  unfold SizeT.representable in Hrep. unfold size in Hhi.
  assert (Hstep := @scan_step_window D ops mode input i output c l1 r1 l2 r2).
  assert (Hs : scan_step mode input i output =
               Ok (if peak_core c l1 r1 l2 r2
                   then ((i + 2)%Z,
                         if compOK (computeTPG l1 c r1)
                         then output ++ [picked_peak mode (computeTPG l1 c r1)]
                         else output)
                   else ((i + 1)%Z, output)))
    by (apply Hstep; [lia | lia | exact Hw]).
  exists (peak_core c l1 r1 l2 r2).
  exists (if peak_core c l1 r1 l2 r2
          then if compOK (computeTPG l1 c r1)
               then output ++ [picked_peak mode (computeTPG l1 c r1)]
               else output
          else output).
  cbv zeta.
  split; [apply is_candidate_window, Hw |].
  assert (Hbound : (i <? SizeT.sub (size input) 2)%Z = true).
  { rewrite sub_small by (unfold size; lia).
    apply Z.ltb_lt. unfold size. lia. }
  split; [| split; [| split; [| split]]].
  - rewrite Hs. destruct (peak_core c l1 r1 l2 r2); reflexivity.
  - intros ->. reflexivity.
  - simpl scan. rewrite Hbound, Hs.
    destruct (peak_core c l1 r1 l2 r2); reflexivity.
  - simpl examined. rewrite Hbound, Hs.
    destruct (peak_core c l1 r1 l2 r2); reflexivity.
  - apply examined_from; [exact Hrep' | lia |].
    destruct (peak_core c l1 r1 l2 r2); lia.
Qed.

End CandidateFacts.

(* ================================================================= *)
(** ** The accepted candidate and its peak *)

Ltac exact_arith :=
  cbv [computeTPG gaussian_sample computeScaledGaussian getMZ getIntensity
       dadd dsub dmul ddiv dopp dsqrt dlog dpow dexp dne_infinity
       lit_0_5 lit_1_0 lit_1_5 lit_2 lit_3_0 lit_6 lit_M_PI reals].

(** Over the reals the scaled Gaussian at its own mean is the area over
    [sqrt (2 pi sigma^2)]. *)
Lemma apex_height_exact (m s a : R) :
  computeScaledGaussian m m s a = (a / R_sqrt.sqrt (2 * PI * s ^ 2))%R.
Proof.
  exact_arith.
  replace (- ((m - m) * (m - m)) / (2 * s * s))%R with 0%R
    by (unfold Rdiv; ring).
  rewrite exp_0, Rmult_1_r.
  replace (2 * PI * s * s)%R with (2 * PI * s ^ 2)%R by ring.
  reflexivity.
Qed.

(** Over the reals [minimum] is the minimum. *)
Lemma minimum_exact (a b : R) : minimum a b = Rmin a b.
Proof.
  unfold minimum, Rmin. cbn [dlt reals]. unfold Rltb.
  destruct (Rlt_dec a b), (Rle_dec a b); lra.
Qed.

(** C6.  At an accepted candidate [i] the fit is computed from the
    samples [p1], [p2], [p3] at [i-1], [i], [i+1]; when it is valid the
    pass pushes one
    peak whose m/z is the fitted [mu] and whose intensity is the fitted
    [area] if the option [intensity_type] is "peakarea", and
    [computeScaledGaussian mu mu sigma area] otherwise; over the reals
    the latter is [area / sqrt (2 pi sigma^2)]. *)
Theorem accepted_candidate_peak :
  (forall (D : Type) (ops : DoubleOps D) (param_ : Param)
          (input : list (Peak D)) (i : Z) (output : list (Peak D))
          (p1 p2 p3 : Peak D),
      window_in_bounds input i ->
      is_candidate input i = Ok true ->
      nth_error input (Z.to_nat (i - 1)) = Some p1 ->
      nth_error input (Z.to_nat i) = Some p2 ->
      nth_error input (Z.to_nat (i + 1)) = Some p3 ->
      let fit := computeTPG p1 p2 p3 in
      compOK fit = true ->
      scan_step (intensity_type_area param_) input i output
      = Ok ((i + 2)%Z,
            output ++
            [mkPeak (mu fit)
                    (if string_dec (intensity_type param_) "peakarea"
                     then area fit
                     else computeScaledGaussian (mu fit) (mu fit)
                                                (sigma fit) (area fit))]))
  /\ (forall m s a : R,
         computeScaledGaussian m m s a = (a / R_sqrt.sqrt (2 * PI * s ^ 2))%R).
Proof.
  split; [| exact apex_height_exact].
  intros D ops param_ input i output p1 p2 p3 Hin Hcand Hp1 Hp2 Hp3 fit Hok.
  destruct (read_window_in_bounds Hin)
    as (l2 & l1 & c & r1 & r2 & _ & H1 & H0 & H3 & _ & Hw).
  assert (l1 = p1) by congruence. assert (c = p2) by congruence.
  assert (r1 = p3) by congruence. subst l1 c r1.
  assert (Hc := Hw). apply is_candidate_window in Hc.
  rewrite Hc in Hcand. injection Hcand as Hcore.
  destruct Hin as (Hrep & Hlo & Hhi).
  unfold SizeT.representable in Hrep. unfold size in Hhi.
  rewrite (@scan_step_window D ops (intensity_type_area param_) input i output
             p2 p1 p3 l2 r2) by (try lia; exact Hw).
  rewrite Hcore. fold fit. rewrite Hok.
  unfold picked_peak, intensity_type_area.
  destruct (string_dec (intensity_type param_) "peakarea"); reflexivity.
Qed.

(* ================================================================= *)
(** ** The fit over the reals *)

Section ExactFit.

Local Open Scope R_scope.

Lemma two_pi_sigma_pos (s : R) : 0 < s -> 0 < 2 * PI * s * s.
Proof.
  intros Hs. assert (Hpi := PI_RGT_0).
  apply Rmult_lt_0_compat; [apply Rmult_lt_0_compat |]; lra.
Qed.

Lemma height_pos (s a : R) :
  0 < s -> 0 < a -> 0 < a / R_sqrt.sqrt (2 * PI * s * s).
Proof.
  intros Hs Ha. apply Rdiv_lt_0_compat; [exact Ha |].
  apply sqrt_lt_R0, two_pi_sigma_pos, Hs.
Qed.

(** A sample of a Gaussian is the exponential of a quadratic. *)
Lemma gaussian_log_quadratic (mu0 sigma0 area0 x : R) :
  0 < sigma0 -> 0 < area0 ->
  area0 / R_sqrt.sqrt (2 * PI * sigma0 * sigma0)
  * exp (- ((x - mu0) * (x - mu0)) / (2 * sigma0 * sigma0))
  = exp (ln (area0 / R_sqrt.sqrt (2 * PI * sigma0 * sigma0))
         + - ((x - mu0) * (x - mu0)) / (2 * sigma0 * sigma0)).
Proof.
  intros Hs Ha. rewrite exp_plus, exp_ln by (apply height_pos; assumption).
  reflexivity.
Qed.

Lemma Rpower_exp (t e : R) : Rpower (exp t) e = exp (e * t).
Proof. unfold Rpower. now rewrite ln_exp. Qed.

Lemma exp3 (a b c : R) : exp a * exp b * exp c = exp (a + b + c).
Proof. now rewrite <- !exp_plus. Qed.

(** C7.  Three samples of one Gaussian, taken at pairwise distinct
    positions, are fitted by that Gaussian: over the reals
    [computeTPG] returns its mean, its standard deviation and its
    area, and reports the fit valid. *)
Theorem fit_recovers_gaussian (mu0 sigma0 area0 x1 x2 x3 : R) :
  0 < sigma0 -> 0 < area0 -> x1 <> x2 -> x2 <> x3 -> x1 <> x3 ->
  computeTPG (gaussian_sample mu0 sigma0 area0 x1)
             (gaussian_sample mu0 sigma0 area0 x2)
             (gaussian_sample mu0 sigma0 area0 x3)
  = mkTPG mu0 sigma0 area0 true.
Proof.
  intros Hs Ha H12 H23 H13.
  exact_arith.
  rewrite !gaussian_log_quadratic by assumption.
  set (c := ln (area0 / R_sqrt.sqrt (2 * PI * sigma0 * sigma0))).
  set (q1 := - ((x1 - mu0) * (x1 - mu0)) / (2 * sigma0 * sigma0)).
  set (q2 := - ((x2 - mu0) * (x2 - mu0)) / (2 * sigma0 * sigma0)).
  set (q3 := - ((x3 - mu0) * (x3 - mu0)) / (2 * sigma0 * sigma0)).
  rewrite !Rpower_exp, !exp3, !ln_exp.
  set (Q := (x1 - x2) * (x2 - x3) * (x3 - x1)).
  assert (HQ : Q <> 0).
  { unfold Q. repeat apply Rmult_integral_contrapositive_currified; lra. }
  assert (Hs0 : sigma0 <> 0) by lra.
  assert (HS : (x3 - x2) * (c + q1) + (x1 - x3) * (c + q2)
               + (x2 - x1) * (c + q3)
               = - Q / (2 * sigma0 * sigma0)).
  { unfold q1, q2, q3, Q. field. exact Hs0. }
  assert (HT : (x3 * x3 - x2 * x2) * (c + q1)
               + (x1 * x1 - x3 * x3) * (c + q2)
               + (x2 * x2 - x1 * x1) * (c + q3)
               = - (mu0 * Q) / (sigma0 * sigma0)).
  { unfold q1, q2, q3, Q. field. exact Hs0. }
  rewrite HS, HT.
  assert (Hmu : 1 / 2 * (- (mu0 * Q) / (sigma0 * sigma0)
                         / (- Q / (2 * sigma0 * sigma0))) = mu0)
    by (field; repeat split; auto).
  assert (Hvar : 1 / 2 * ((x1 - x3) * (x2 - x1) * (x3 - x2))
                 / (- Q / (2 * sigma0 * sigma0)) = sigma0 * sigma0).
  { unfold Q. field. repeat split; lra. }
  rewrite Hmu, Hvar, sqrt_square by lra.
  f_equal.
  assert (Hsum : 1 / 3 * (c + q1 + (c + q2) + (c + q3))
                 + ((x1 - mu0) * (x1 - mu0) + (x2 - mu0) * (x2 - mu0)
                    + (x3 - mu0) * (x3 - mu0)) / (6 * sigma0 * sigma0) = c).
  { unfold q1, q2, q3. field. exact Hs0. }
  rewrite Rpower_exp, Rmult_assoc, <- exp_plus, Hsum.
  unfold c. rewrite exp_ln by (apply height_pos; assumption).
  field. apply Rgt_not_eq, sqrt_lt_R0, two_pi_sigma_pos, Hs.
Qed.

End ExactFit.

(* ================================================================= *)
(** ** The fit in binary64: what the validity flag lets through *)

Section Binary64Facts.

Local Open Scope float_scope.

Lemma SFcompare_refl_not_nan (x : spec_float) :
  x <> S754_nan -> SFcompare x x = Some Eq.
Proof.
  destruct x as [s | s | | s m e]; intros H; try congruence.
  - destruct s; reflexivity.
  - destruct s; reflexivity.
  - simpl. destruct s; rewrite Z.compare_refl, ?Pos.compare_refl; reflexivity.
Qed.

(** Binary64, as Rocq has it, has one NaN. *)
Lemma is_nan_eq (x : float) : is_nan x = true <-> x = nan.
Proof.
  split; [| intros ->; reflexivity].
  unfold is_nan. rewrite FloatAxioms.eqb_spec. unfold SFeqb. intros H.
  apply Prim2SF_inj.
  destruct (Prim2SF x) as [s | s | | s m e] eqn:E; try reflexivity;
    rewrite SFcompare_refl_not_nan in H by discriminate; discriminate.
Qed.

Lemma eqb_infinity (x : float) : (x =? infinity) = true <-> x = infinity.
Proof.
  split; [| intros ->; reflexivity].
  rewrite FloatAxioms.eqb_spec. unfold SFeqb. intros H.
  apply Prim2SF_inj.
  destruct (Prim2SF x) as [s | s | | s m e] eqn:E; simpl in H;
    try destruct s; try discriminate; reflexivity.
Qed.

Lemma mul_nan_l (x : float) : nan * x = nan.
Proof. apply Prim2SF_inj. rewrite FloatAxioms.mul_spec. reflexivity. Qed.

Lemma div_nan_l (x : float) : nan / x = nan.
Proof. apply Prim2SF_inj. rewrite FloatAxioms.div_spec. reflexivity. Qed.

Lemma mul_nan_r (x : float) : x * nan = nan.
Proof.
  apply Prim2SF_inj. rewrite FloatAxioms.mul_spec.
  destruct (Prim2SF x); reflexivity.
Qed.

End Binary64Facts.

Section Binary64Fit.

Context {m : Libm}.
Local Open Scope float_scope.

Lemma compOK_binary64 (p1 p2 p3 : Peak float) :
  compOK (computeTPG p1 p2 p3)
  = negb (area (computeTPG p1 p2 p3) =? infinity).
Proof. reflexivity. Qed.

Lemma compOK_iff_not_infinity (p1 p2 p3 : Peak float) :
  compOK (computeTPG p1 p2 p3) = true
  <-> area (computeTPG p1 p2 p3) <> infinity.
Proof.
  rewrite compOK_binary64, negb_true_iff. split.
  - intros H Heq. apply eqb_infinity in Heq. congruence.
  - intros H. destruct (area (computeTPG p1 p2 p3) =? infinity) eqn:E;
      [| reflexivity].
    apply eqb_infinity in E. contradiction.
Qed.

(** A NaN area makes the output intensity NaN under either convention. *)
Lemma picked_peak_nan (mode : bool) (fit : TPG float) :
  is_nan (area fit) = true ->
  getMZ (picked_peak mode fit) = mu fit /\
  is_nan (getIntensity (picked_peak mode fit)) = true.
Proof.
  intros H. apply is_nan_eq in H. split; [reflexivity |].
  apply is_nan_eq. unfold picked_peak, computeScaledGaussian.
  cbn [getIntensity]. rewrite H. destruct mode; [reflexivity |].
  cbn [ddiv dmul binary64]. rewrite div_nan_l, mul_nan_l. reflexivity.
Qed.

(** C10.  In binary64, with any libm: the fit is reported valid exactly
    when its area is not +infinity; so a fit whose area is NaN or
    -infinity is reported valid; and at an accepted candidate whose fit
    has a NaN area the pass pushes a peak with the fitted [mu] as m/z
    and a NaN intensity. *)
Theorem invalid_fit_accepted :
  (forall p1 p2 p3 : Peak float,
      compOK (computeTPG p1 p2 p3) = true
      <-> area (computeTPG p1 p2 p3) <> infinity)
  /\ (forall p1 p2 p3 : Peak float,
         is_nan (area (computeTPG p1 p2 p3)) = true
         \/ area (computeTPG p1 p2 p3) = neg_infinity ->
         compOK (computeTPG p1 p2 p3) = true)
  /\ (forall (mode : bool) (input : list (Peak float)) (i : Z)
             (output : list (Peak float)) (p1 p2 p3 : Peak float),
         window_in_bounds input i ->
         is_candidate input i = Ok true ->
         nth_error input (Z.to_nat (i - 1)) = Some p1 ->
         nth_error input (Z.to_nat i) = Some p2 ->
         nth_error input (Z.to_nat (i + 1)) = Some p3 ->
         is_nan (area (computeTPG p1 p2 p3)) = true ->
         exists peak,
           scan_step mode input i output = Ok ((i + 2)%Z, output ++ [peak])
           /\ getMZ peak = mu (computeTPG p1 p2 p3)
           /\ is_nan (getIntensity peak) = true).
Proof.
  assert (Hnan : forall p1 p2 p3 : Peak float,
             is_nan (area (computeTPG p1 p2 p3)) = true
             \/ area (computeTPG p1 p2 p3) = neg_infinity ->
             compOK (computeTPG p1 p2 p3) = true).
  { intros p1 p2 p3 H. apply compOK_iff_not_infinity. intros Heq.
    rewrite Heq in H. destruct H as [H | H]; vm_compute in H; discriminate. }
  split; [exact compOK_iff_not_infinity | split; [exact Hnan |]].
  intros mode input i output p1 p2 p3 Hin Hcand Hp1 Hp2 Hp3 Harea.
  destruct (read_window_in_bounds Hin)
    as (l2 & l1 & c & r1 & r2 & _ & H1 & H0 & H3 & _ & Hw).
  assert (l1 = p1) by congruence. assert (c = p2) by congruence.
  assert (r1 = p3) by congruence. subst l1 c r1.
  assert (Hc := Hw). apply is_candidate_window in Hc.
  rewrite Hc in Hcand. injection Hcand as Hcore.
  destruct Hin as (Hrep & Hlo & Hhi).
  unfold SizeT.representable in Hrep. unfold size in Hhi.
  exists (picked_peak mode (computeTPG p1 p2 p3)).
  rewrite (@scan_step_window float binary64 mode input i output p2 p1 p3 l2 r2)
    by (try lia; exact Hw).
  rewrite Hcore, (Hnan p1 p2 p3) by (left; exact Harea).
  split; [reflexivity | apply picked_peak_nan, Harea].
Qed.

(** C2.  Three samples on a horizontal line are collinear in
    (x, log y).  With [pow(1, y) = 1] and [log(1) = +0], which C99
    Annex F fixes for every libm, the fit divides by zero: the radicand
    of [sigma] is -infinity, [sigma] and [area] are NaN, and the fit is
    reported valid. *)
Theorem flat_triplet_reported_valid :
  (forall y, libm_pow 1 y = 1) -> libm_log 1 = 0 ->
  let fit := computeTPG Samples.flat1 Samples.flat2 Samples.flat3 in
  is_nan (sigma fit) = true /\ is_nan (area fit) = true /\ compOK fit = true.
Proof.
  intros Hpow Hlog fit.
  assert (Hfit : sigma fit = nan /\ area fit = nan).
  { unfold fit, computeTPG.
    cbn -[PrimFloat.mul PrimFloat.sub PrimFloat.div PrimFloat.add
          PrimFloat.sqrt].
    change (1 * 1 * 1) with 1.
    rewrite !Hpow. change (1 * 1 * 1) with 1. rewrite !Hlog.
    split; [reflexivity |].
    change (PrimFloat.sqrt (0.5 * ((1 - 3) * (2 - 1) * (3 - 2)) / 0)) with nan.
    change (PrimFloat.sqrt (2 * 0x1.921fb54442d18p+1 * nan * nan) * 1) with nan.
    apply mul_nan_l. }
  destruct Hfit as [Hsigma Harea].
  rewrite Hsigma, Harea. repeat split.
  unfold fit. rewrite compOK_binary64. fold fit. rewrite Harea. reflexivity.
Qed.

(** The tall triplet: [x3 * x3 - x2 * x2] is 250.078125 and
    [x1 * x1 - x3 * x3] is -500.125.  A libm that returns +infinity for
    1000 ^ 250.078125, 0 for 100000 ^ -500.125 (the range errors of
    C99 7.12.1) and NaN for [log(NaN)] makes the fitted mean NaN. *)
Lemma tall_triplet_overflow :
  libm_pow 1000 250.078125 = infinity ->
  libm_pow 100000 (-500.125) = 0 ->
  libm_log nan = nan ->
  is_nan (mu (computeTPG Samples.tall1 Samples.tall2 Samples.tall3)) = true.
Proof.
  intros Hover Hunder Hlog. apply is_nan_eq.
  unfold computeTPG, Samples.tall1, Samples.tall2, Samples.tall3.
  cbn -[PrimFloat.mul PrimFloat.sub PrimFloat.div PrimFloat.add
        PrimFloat.sqrt].
  change (1000.375 * 1000.375 - 1000.25 * 1000.25) with 250.078125.
  change (1000.125 * 1000.125 - 1000.375 * 1000.375) with (-500.125).
  rewrite Hover, Hunder.
  change (infinity * 0) with nan.
  rewrite mul_nan_l, Hlog, div_nan_l. reflexivity.
Qed.

End Binary64Fit.

(* ================================================================= *)
(** ** The experiment driver *)

Section MapResult.

Context {A B : Type} (f : A -> result B).

Lemma map_result_Ok (l : list A) (outs : list B) :
  map_result f l = Ok outs ->
  List.length outs = List.length l /\
  forall idx a, nth_error l idx = Some a ->
                exists b, f a = Ok b /\ nth_error outs idx = Some b.
Proof.
  revert outs. induction l as [| a l IH]; intros outs H; simpl in H.
  - injection H as <-. split; [reflexivity |]. intros [| idx] b Hb; discriminate.
  - destruct (f a) as [b | e] eqn:Ha; simpl in H; [| discriminate].
    destruct (map_result f l) as [bs | e]; simpl in H; [| discriminate].
    injection H as <-. destruct (IH bs eq_refl) as [Hlen Hnth].
    split; [simpl; congruence |].
    intros [| idx] a' Ha'; simpl in *.
    + injection Ha' as <-. exists b. auto.
    + apply Hnth, Ha'.
Qed.

Lemma map_result_Err (l : list A) (e : error) :
  map_result f l = Err e ->
  exists idx a, nth_error l idx = Some a /\ f a = Err e.
Proof.
  induction l as [| a l IH]; intros H; simpl in H; [discriminate |].
  destruct (f a) as [b | e'] eqn:Ha; simpl in H.
  - destruct (map_result f l) as [bs | e'']; simpl in H; [discriminate |].
    injection H as ->. destruct (IH eq_refl) as (idx & a' & Hn & Hf).
    exists (S idx), a'. auto.
  - injection H as ->. exists O, a. auto.
Qed.

End MapResult.

Section DriverFacts.

Context {D : Type} {ops : DoubleOps D} {ext : Collaborators D}.

(** [pick] clears its output first: what the output held before does
    not matter. *)
Lemma pick_ignores_output (param_ : Param) (input out1 out2 : MSSpectrum) :
  pick param_ input out1 = pick param_ input out2.
Proof. reflexivity. Qed.

Lemma pickExperiment_ignores_output (param_ : Param)
      (input out1 out2 : MSExperiment) :
  pickExperiment param_ input out1 = pickExperiment param_ input out2.
Proof. reflexivity. Qed.

Lemma replace_nth_middle (done blanks : list MSSpectrum) (b x : MSSpectrum) :
  replace_nth (done ++ b :: blanks) (List.length done) x
  = (done ++ [x]) ++ blanks.
Proof.
  induction done as [| d done IH]; simpl; [reflexivity |].
  now rewrite IH.
Qed.

(** One pass of the driver at position [length pre]. *)
Lemma driver_step_at (param_ : Param) (pre post : list MSSpectrum)
      (s : MSSpectrum) (done blanks : list MSSpectrum) (b : MSSpectrum)
      (count : Z) (log : list ProgressEvent) :
  List.length done = List.length pre ->
  SizeT.representable (List.length (pre ++ s :: post)) ->
  driver_step param_ (ms1_only param_) (pre ++ s :: post)
              (mkDriverState (Z.of_nat (List.length pre))
                             (done ++ b :: blanks) count log)
  = (o <- pass_or_pick param_ s ;;
     Ok (mkDriverState (Z.of_nat (List.length (pre ++ [s])))
                       ((done ++ [o]) ++ blanks)
                       (SizeT.add count 1)
                       (log ++ [setProgress (SizeT.add count 1)]))).
Proof.
  intros Hlen Hrep. unfold SizeT.representable in Hrep.
  rewrite length_app in Hrep. simpl in Hrep.
  unfold driver_step. cbn [scan_idx out_spectra progress progress_log].
  assert (Hin : at_ (pre ++ s :: post) (Z.of_nat (List.length pre)) = Ok s).
  { apply at_Ok. split; [lia |].
    rewrite Nat2Z.id, nth_error_app2, Nat.sub_diag by lia. reflexivity. }
  assert (Hout : at_ (done ++ b :: blanks) (Z.of_nat (List.length pre)) = Ok b).
  { apply at_Ok. split; [lia |].
    rewrite Nat2Z.id, <- Hlen, nth_error_app2, Nat.sub_diag by lia.
    reflexivity. }
  assert (Hset : forall x, assign_at (done ++ b :: blanks)
                                     (Z.of_nat (List.length pre)) x
                           = Ok ((done ++ [x]) ++ blanks)).
  { intros x. unfold assign_at.
    destruct (Z.ltb_spec (Z.of_nat (List.length pre)) 0); [lia |].
    rewrite Nat2Z.id, <- Hlen.
    destruct (Nat.ltb_spec (List.length done)
                           (List.length (done ++ b :: blanks))) as [_ | H'].
    - now rewrite replace_nth_middle.
    - rewrite length_app in H'. simpl in H'. lia. }
  assert (Hnext : SizeT.add (Z.of_nat (List.length pre)) 1
                  = Z.of_nat (List.length (pre ++ [s]))).
  { rewrite add_small by lia. rewrite length_app. simpl. lia. }
  rewrite Hin. simpl. unfold pass_or_pick, passes_through.
  destruct (ms1_only param_ && negb (getMSLevel s =? 1)%Z).
  - rewrite Hset. simpl. now rewrite Hnext.
  - rewrite Hout. simpl.
    rewrite (pick_ignores_output param_ s b MSSpectrum_new).
    destruct (pick param_ s MSSpectrum_new) as [o | e]; simpl; [| reflexivity].
    rewrite Hset. simpl. now rewrite Hnext.
Qed.

(** The driver's loop treats the remaining spectra one by one. *)
Lemma driver_loop_map_result (param_ : Param) :
  forall (post pre done blanks : list MSSpectrum) (fuel : nat)
         (count : Z) (log : list ProgressEvent),
    List.length done = List.length pre ->
    List.length blanks = List.length post ->
    SizeT.representable (List.length (pre ++ post)) ->
    (List.length post <= fuel)%nat ->
    match map_result (pass_or_pick param_) post with
    | Ok outs =>
        exists st,
          driver_loop fuel param_ (ms1_only param_) (pre ++ post)
                      (mkDriverState (Z.of_nat (List.length pre))
                                     (done ++ blanks) count log) = Ok st
          /\ out_spectra st = done ++ outs
    | Err e =>
        driver_loop fuel param_ (ms1_only param_) (pre ++ post)
                    (mkDriverState (Z.of_nat (List.length pre))
                                   (done ++ blanks) count log) = Err e
    end.
Proof.
  induction post as [| s post IH];
    intros pre done blanks fuel count log Hdone Hblanks Hrep Hfuel.
  - destruct blanks; [| discriminate]. simpl map_result.
    exists (mkDriverState (Z.of_nat (List.length pre)) (done ++ [])
                          count log).
    split; [| reflexivity].
    rewrite app_nil_r.
    destruct fuel; simpl; unfold size; rewrite Z.eqb_refl; reflexivity.
  - destruct blanks as [| b blanks]; [discriminate |].
    destruct fuel as [| fuel]; [simpl in Hfuel; lia |].
    simpl driver_loop. cbn [scan_idx].
    destruct (Z.eqb_spec (Z.of_nat (List.length pre)) (size (pre ++ s :: post)))
      as [Heq | _].
    { unfold size in Heq. rewrite length_app in Heq. simpl in Heq. lia. }
    rewrite driver_step_at by assumption.
    simpl map_result.
    destruct (pass_or_pick param_ s) as [o | e]; simpl; [| reflexivity].
    specialize (IH (pre ++ [s]) (done ++ [o]) blanks fuel
                   (SizeT.add count 1)
                   (log ++ [setProgress (SizeT.add count 1)])).
    rewrite <- app_assoc in IH. simpl in IH.
    assert (H1 : List.length (done ++ [o]) = List.length (pre ++ [s]))
      by (rewrite !length_app; simpl; lia).
    assert (H2 : List.length blanks = List.length post)
      by (simpl in Hblanks; lia).
    specialize (IH H1 H2 Hrep ltac:(simpl in Hfuel; lia)).
    destruct (map_result (pass_or_pick param_) post) as [outs | e]; simpl.
    + destruct IH as (st & Hst & Hout). exists st. split; [exact Hst |].
      rewrite Hout, <- app_assoc. reflexivity.
    + exact IH.
Qed.

Lemma pickExperiment_map_result (param_ : Param) (input output : MSExperiment) :
  SizeT.representable (List.length (spectra input)) ->
  match map_result (pass_or_pick param_) (spectra input) with
  | Ok outs =>
      exists log,
        pickExperiment param_ input output
        = Ok (mkMSExperiment (experimental_settings input) outs, log)
  | Err e => pickExperiment param_ input output = Err e
  end.
Proof.
  intros Hrep. unfold pickExperiment.
  cbn [MSExperiment_clear spectra experimental_settings].
  assert (Hresize : resize [] (size (spectra input))
                    = repeat MSSpectrum_new (List.length (spectra input))).
  { unfold resize, size. rewrite Nat2Z.id, firstn_nil. simpl.
    now rewrite Nat.sub_0_r. }
  rewrite Hresize.
  assert (H := @driver_loop_map_result param_ (spectra input) [] []
                 (repeat MSSpectrum_new (List.length (spectra input)))
                 (List.length (spectra input)) 0%Z
                 [startProgress 0 (size (spectra input)) "picking peaks"]
                 eq_refl (repeat_length _ _) Hrep (le_n _)).
  simpl app in H. simpl Z.of_nat in H.
  destruct (map_result (pass_or_pick param_) (spectra input)) as [outs | e].
  - destruct H as (st & Hst & Hout). rewrite Hst. simpl. rewrite Hout.
    eexists. reflexivity.
  - rewrite H. reflexivity.
Qed.

(** What the driver returns, and where it fails: it returns an
    experiment with the input's settings and as many spectra as the
    input; at every index a spectrum whose level is not 1 is returned
    unchanged when [ms1_only] is set, and every other spectrum is
    replaced by its [pick]; the driver fails only where the [pick] of
    such a spectrum fails, and with its error. *)
Lemma pickExperiment_pass_or_pick (param_ : Param)
        (input output : MSExperiment) :
  SizeT.representable (List.length (spectra input)) ->
  match pickExperiment param_ input output with
  | Ok (out, _) =>
      experimental_settings out = experimental_settings input /\
      List.length (spectra out) = List.length (spectra input) /\
      forall idx s,
        nth_error (spectra input) idx = Some s ->
        (ms1_only param_ = true -> getMSLevel s <> 1%Z ->
         nth_error (spectra out) idx = Some s) /\
        (ms1_only param_ = false \/ getMSLevel s = 1%Z ->
         exists o, pick param_ s MSSpectrum_new = Ok o /\
                   nth_error (spectra out) idx = Some o)
  | Err e =>
      exists idx s,
        nth_error (spectra input) idx = Some s /\
        (ms1_only param_ = false \/ getMSLevel s = 1%Z) /\
        pick param_ s MSSpectrum_new = Err e
  end.
Proof.
  intros Hrep.
  assert (Hchoice : forall s,
             (ms1_only param_ = true /\ getMSLevel s <> 1%Z
              /\ pass_or_pick param_ s = Ok s)
             \/ ((ms1_only param_ = false \/ getMSLevel s = 1%Z)
                 /\ pass_or_pick param_ s = pick param_ s MSSpectrum_new)).
  { intros s. unfold pass_or_pick, passes_through.
    destruct (ms1_only param_); simpl; [| right; auto].
    destruct (Z.eqb_spec (getMSLevel s) 1); simpl; [right | left]; auto. }
  assert (H := pickExperiment_map_result param_ input output Hrep).
  destruct (map_result (pass_or_pick param_) (spectra input)) as [outs | e] eqn:E.
  - destruct H as (log & ->). cbn [experimental_settings spectra].
    apply map_result_Ok in E. destruct E as [Hlen Hnth].
    split; [reflexivity | split; [exact Hlen |]].
    intros idx s Hs. destruct (Hnth idx s Hs) as (o & Ho & Hout).
    destruct (Hchoice s) as [(Hms & Hlvl & Hpass) | (Hcond & Hpick)].
    + split.
      * intros _ _. congruence.
      * intros [Hf | Hl]; congruence.
    + split.
      * intros Hms Hlvl. destruct Hcond; congruence.
      * intros _. exists o. split; congruence.
  - rewrite H. apply map_result_Err in E. destruct E as (idx & s & Hs & Hf).
    exists idx, s. split; [exact Hs |].
    destruct (Hchoice s) as [(_ & _ & Hpass) | (Hcond & Hpick)];
      [congruence |].
    split; [exact Hcond | congruence].
Qed.

End DriverFacts.

(* ================================================================= *)
(** ** Runs on concrete spectra *)

Section Runs.

#[local] Existing Instance ieee.
#[local] Existing Instance text_collaborators.

Lemma representable_small (n : nat) :
  (n <= 1000)%nat -> SizeT.representable n.
Proof. intros H. unfold SizeT.representable. rewrite modulus_value. lia. Qed.

Lemma one_peak_window : window_in_bounds Samples.one_peak 2.
Proof.
  split; [apply representable_small; simpl; lia |].
  unfold size; simpl; lia.
Qed.

Lemma tall_peak_window : window_in_bounds Samples.tall_peak 2.
Proof.
  split; [apply representable_small; simpl; lia |].
  unfold size; simpl; lia.
Qed.

(** The clean peak is picked at its apex: m/z 100.25 and height 50, up
    to rounding. *)
Example pick_one_peak :
  exists p,
    pick Samples.height_param Samples.raw_spectrum Samples.stale_spectrum
    = Ok (Samples.spectrum_of PEAKS 1 [p])
    /\ (abs (getMZ p - 100.25) <? 0x1p-30)%float = true
    /\ (abs (getIntensity p - 50) <? 0x1p-30)%float = true.
Proof.
  eexists. split; [vm_compute; reflexivity |].
  split; vm_compute; reflexivity.
Qed.

(** The tall peak is picked as a NaN: its powers overflow. *)
Example pick_tall_peak :
  pick Samples.height_param Samples.tall_spectrum Samples.stale_spectrum
  = Ok (Samples.spectrum_of PEAKS 1 [mkPeak nan nan]).
Proof. vm_compute. reflexivity. Qed.

(** C1, as stated, fails: the input is tagged [RAWDATA], the output
    [PEAKS]. *)
Lemma pick_type_tag_not_copied :
  exists out,
    pick Samples.height_param Samples.raw_spectrum Samples.stale_spectrum = Ok out
    /\ getType (settings out) <> getType (settings Samples.raw_spectrum).
Proof.
  eexists. split; [vm_compute; reflexivity | simpl; discriminate].
Qed.

Lemma pick_metadata_witness :
  exists out,
    pick Samples.height_param Samples.raw_spectrum Samples.stale_spectrum = Ok out /\
    getRT out = getRT Samples.raw_spectrum /\
    getMSLevel out = getMSLevel Samples.raw_spectrum /\
    getName out = getName Samples.raw_spectrum /\
    meta_info out = meta_info Samples.raw_spectrum /\
    settings_data (settings out) = settings_data (settings Samples.raw_spectrum) /\
    getType (settings out) = PEAKS.
Proof.
  apply (pick_metadata Samples.height_param Samples.raw_spectrum
                       Samples.stale_spectrum).
  - apply representable_small. simpl. lia.
  - simpl. lia.
Defined.

Lemma pick_short_out_of_range_witness :
  pick Samples.area_param Samples.empty_spectrum Samples.stale_spectrum
  = Err OutOfRange.
Proof.
  apply (pick_short_out_of_range Samples.area_param Samples.empty_spectrum
                                 Samples.stale_spectrum).
  simpl. lia.
Defined.

Lemma candidate_iff_shape_witness :
  exists l2 l1 c r1 r2 accepted,
    nth_error Samples.one_peak (Z.to_nat (2 - 2)) = Some l2 /\
    nth_error Samples.one_peak (Z.to_nat (2 - 1)) = Some l1 /\
    nth_error Samples.one_peak (Z.to_nat 2) = Some c /\
    nth_error Samples.one_peak (Z.to_nat (2 + 1)) = Some r1 /\
    nth_error Samples.one_peak (Z.to_nat (2 + 2)) = Some r2 /\
    is_candidate Samples.one_peak 2 = Ok accepted /\
    (accepted = true <-> candidate_apex l2 l1 c r1 r2).
Proof.
  apply (candidate_iff_shape (input := Samples.one_peak) (i := 2)).
  exact one_peak_window.
Defined.

Lemma scan_advance_witness :
  exists (accepted : bool) (output' : list (Peak float)),
    let next := if accepted then (2 + 2)%Z else (2 + 1)%Z in
    is_candidate Samples.one_peak 2 = Ok accepted /\
    scan_step false Samples.one_peak 2 [] = Ok (next, output') /\
    (accepted = false -> output' = []) /\
    scan 7 false Samples.one_peak 2 []
    = scan 6 false Samples.one_peak next output' /\
    examined 7 false Samples.one_peak 2 []
    = 2%Z :: examined 6 false Samples.one_peak next output' /\
    Forall (fun j => (next <= j)%Z)
           (examined 6 false Samples.one_peak next output').
Proof.
  apply (scan_advance false [] 6 one_peak_window).
Defined.

(** On the clean peak the loop examines index 2, accepts it, and has
    nothing left to examine: index 3 is skipped. *)
Example examined_one_peak :
  is_candidate Samples.one_peak 2 = Ok true
  /\ examined 7 false Samples.one_peak 2 [] = [2%Z].
Proof. split; vm_compute; reflexivity. Qed.

Lemma accepted_candidate_peak_witness :
  let fit := computeTPG (mkPeak 100.125 5)%float (mkPeak 100.25 50)%float
                        (mkPeak 100.375 5)%float in
  scan_step (intensity_type_area Samples.height_param) Samples.one_peak 2 []
  = Ok (4%Z,
        [mkPeak (mu fit)
                (computeScaledGaussian (mu fit) (mu fit) (sigma fit) (area fit))]).
Proof.
  apply (proj1 accepted_candidate_peak float ieee Samples.height_param
               Samples.one_peak 2%Z [] (mkPeak 100.125 5)%float
               (mkPeak 100.25 50)%float (mkPeak 100.375 5)%float
               one_peak_window);
    vm_compute; reflexivity.
Defined.

Lemma fit_recovers_gaussian_witness :
  computeTPG (gaussian_sample 0 1 1 (-1)) (gaussian_sample 0 1 1 0)
             (gaussian_sample 0 1 1 1)
  = mkTPG 0%R 1%R 1%R true.
Proof.
  apply (@fit_recovers_gaussian 0 1 1 (-1) 0 1); lra.
Defined.

Lemma invalid_fit_accepted_witness :
  exists peak,
    scan_step false Samples.tall_peak 2 [] = Ok (4%Z, [peak])
    /\ getMZ peak = mu (computeTPG Samples.tall1 Samples.tall2 Samples.tall3)
    /\ is_nan (getIntensity peak) = true.
Proof.
  apply (proj2 (proj2 (@invalid_fit_accepted RefLibm.libm)) false
               Samples.tall_peak 2%Z [] Samples.tall1 Samples.tall2
               Samples.tall3 tall_peak_window);
    vm_compute; reflexivity.
Defined.

Lemma RefLibm_pow_one (y : float) : RefLibm.pow 1 y = 1%float.
Proof. unfold RefLibm.pow. destruct (y =? 0)%float; reflexivity. Qed.

Lemma flat_triplet_reported_valid_witness :
  let fit := computeTPG Samples.flat1 Samples.flat2 Samples.flat3 in
  is_nan (sigma fit) = true /\ is_nan (area fit) = true /\ compOK fit = true.
Proof.
  apply (@flat_triplet_reported_valid RefLibm.libm RefLibm_pow_one).
  vm_compute. reflexivity.
Defined.

(** *** The fit of the tall triplet, over the reals and in binary64 *)

Ltac real_value :=
  unfold real_peak, real_of_float; cbn [getMZ getIntensity];
  vm_compute Prim2SF; cbv iota beta;
  repeat match goal with
         | |- context [(?a <? ?b)%Z] =>
             let v := eval vm_compute in (a <? b)%Z in
             change (a <? b)%Z with v
         end;
  cbv iota;
  repeat match goal with
         | |- context [IZR (2 ^ ?e)] =>
             let v := eval vm_compute in (2 ^ e)%Z in
             change (2 ^ e)%Z with v
         end.

Lemma real_tall1 : real_peak Samples.tall1 = mkPeak (8001 / 8)%R 1000%R.
Proof. unfold Samples.tall1. real_value. f_equal; lra. Qed.

Lemma real_tall2 : real_peak Samples.tall2 = mkPeak (4001 / 4)%R 100000%R.
Proof. unfold Samples.tall2. real_value. f_equal; lra. Qed.

Lemma real_tall3 : real_peak Samples.tall3 = mkPeak (8003 / 8)%R 1000%R.
Proof. unfold Samples.tall3. real_value. f_equal; lra. Qed.

(** The tall triplet lies on a Gaussian: mean 4001/4, height 100000,
    variance 1 / (128 ln 100). *)
Lemma tall_triplet_on_gaussian :
  exists mu0 sigma0 area0 : R,
    (0 < sigma0)%R /\ (0 < area0)%R /\
    Forall (fun p => gaussian_sample mu0 sigma0 area0 (getMZ (real_peak p))
                     = real_peak p)
           [Samples.tall1; Samples.tall2; Samples.tall3].
Proof.
  assert (Hln : (0 < ln 100)%R).
  { rewrite <- ln_1. apply ln_increasing; lra. }
  set (v := (/ (128 * ln 100))%R).
  assert (Hv : (0 < v)%R) by (apply Rinv_0_lt_compat; lra).
  set (s := R_sqrt.sqrt v).
  assert (Hs : (0 < s)%R) by (apply sqrt_lt_R0, Hv).
  assert (Hss : (s * s = v)%R) by (apply sqrt_sqrt; lra).
  assert (Hroot : (0 < R_sqrt.sqrt (2 * PI * s * s))%R)
    by (apply sqrt_lt_R0, two_pi_sigma_pos, Hs).
  exists (4001 / 4)%R, s, (100000 * R_sqrt.sqrt (2 * PI * s * s))%R.
  split; [exact Hs |]. split; [apply Rmult_lt_0_compat; lra |].
  assert (Hheight : (100000 * R_sqrt.sqrt (2 * PI * s * s)
                     / R_sqrt.sqrt (2 * PI * s * s) = 100000)%R)
    by (field; lra).
  assert (Hflank : forall d : R, (d * d = / 64)%R ->
             exp (- (d * d) / (2 * s * s)) = (/ 100)%R).
  { intros d Hd.
    replace (- (d * d) / (2 * s * s))%R with (- ln 100)%R.
    - rewrite exp_Ropp, exp_ln by lra. reflexivity.
    - rewrite Hd, Rmult_assoc, Hss. unfold v. field. lra. }
  repeat constructor; cbv beta;
    rewrite ?real_tall1, ?real_tall2, ?real_tall3;
    unfold gaussian_sample; cbn [getMZ]; f_equal;
    exact_arith; rewrite Hheight.
  - rewrite Hflank by lra. lra.
  - replace (- ((4001 / 4 - 4001 / 4) * (4001 / 4 - 4001 / 4))
             / (2 * s * s))%R with 0%R by (unfold Rdiv; ring).
    rewrite exp_0. lra.
  - rewrite Hflank by lra. lra.
Qed.

(** C7, as stated, fails in binary64: the tall triplet is sampled from
    a Gaussian at three distinct positions, and the fitted mean and
    area are NaN. *)
Lemma fit_not_recovered_in_binary64 :
  (exists mu0 sigma0 area0 : R,
      (0 < sigma0)%R /\ (0 < area0)%R /\
      Forall (fun p => gaussian_sample mu0 sigma0 area0 (getMZ (real_peak p))
                       = real_peak p)
             [Samples.tall1; Samples.tall2; Samples.tall3])
  /\ mu (computeTPG Samples.tall1 Samples.tall2 Samples.tall3) = nan
  /\ area (computeTPG Samples.tall1 Samples.tall2 Samples.tall3) = nan.
Proof.
  split; [exact tall_triplet_on_gaussian |].
  split; vm_compute; reflexivity.
Qed.


End Runs.

(* ================================================================= *)
(** ** Order of binary64 *)

Section Binary64Order.

Local Open Scope float_scope.

(** The order of two finite values of one sign: by exponent, then by
    mantissa. *)
Lemma finite_order_Lt (e1 e2 : Z) (m1 m2 : positive) :
  match (e1 ?= e2)%Z with
  | Lt => Lt
  | Gt => Gt
  | Eq => Pos.compare_cont Eq m1 m2
  end = Lt
  <-> (e1 < e2)%Z \/ (e1 = e2 /\ (m1 < m2)%positive).
Proof.
  change (Pos.compare_cont Eq m1 m2) with (m1 ?= m2)%positive.
  destruct (Z.compare_spec e1 e2) as [He | He | He].
  - rewrite Pos.compare_lt_iff. split; [auto | intros [H | [_ H]]; [lia | exact H]].
  - split; [auto | reflexivity].
  - split; [discriminate | intros [H | [H _]]; lia].
Qed.

Lemma finite_order_Gt (e1 e2 : Z) (m1 m2 : positive) :
  match (e1 ?= e2)%Z with
  | Lt => Gt
  | Gt => Lt
  | Eq => CompOpp (Pos.compare_cont Eq m1 m2)
  end = Lt
  <-> (e2 < e1)%Z \/ (e1 = e2 /\ (m2 < m1)%positive).
Proof.
  change (Pos.compare_cont Eq m1 m2) with (m1 ?= m2)%positive.
  destruct (Z.compare_spec e1 e2) as [He | He | He].
  - rewrite <- Pos.compare_antisym, Pos.compare_lt_iff.
    split; [auto | intros [H | [_ H]]; [lia | exact H]].
  - split; [discriminate | intros [H | [H _]]; lia].
  - split; [auto | reflexivity].
Qed.

Lemma is_Lt_true (c : comparison) :
  match c with Lt => true | _ => false end = true <-> c = Lt.
Proof. destruct c; split; congruence. Qed.

Lemma SFltb_irrefl (x : spec_float) : SFltb x x = false.
Proof.
  unfold SFltb. destruct x as [s | s | | s m e]; try reflexivity.
  - destruct s; reflexivity.
  - rewrite SFcompare_refl_not_nan by discriminate. reflexivity.
Qed.

Lemma SFltb_trans (x y z : spec_float) :
  SFltb x y = true -> SFltb y z = true -> SFltb x z = true.
Proof.
  unfold SFltb.
  destruct x as [sx | sx | | sx mx ex], y as [sy | sy | | sy my ey],
           z as [sz | sz | | sz mz ez];
    simpl; try discriminate; try reflexivity;
    try (destruct sx; try discriminate; try reflexivity);
    try (destruct sy; try discriminate; try reflexivity);
    try (destruct sz; try discriminate; try reflexivity).
  all: intros Hxy Hyz.
  all: try (simpl in *; congruence).
  all: rewrite is_Lt_true in *.
  all: rewrite ?finite_order_Lt, ?finite_order_Gt in *; lia.
Qed.

Lemma ltb_irrefl (x : float) : (x <? x) = false.
Proof. rewrite FloatAxioms.ltb_spec. apply SFltb_irrefl. Qed.

Lemma ltb_trans (x y z : float) :
  (x <? y) = true -> (y <? z) = true -> (x <? z) = true.
Proof. rewrite !FloatAxioms.ltb_spec. apply SFltb_trans. Qed.

Lemma ltb_asym (x y : float) : (x <? y) = true -> (y <? x) = false.
Proof.
  intros H. destruct (y <? x) eqn:E; [| reflexivity].
  rewrite <- (ltb_irrefl x). symmetry. eapply ltb_trans; eassumption.
Qed.

Lemma ltb_nan_l (x : float) : (nan <? x) = false.
Proof. rewrite FloatAxioms.ltb_spec. reflexivity. Qed.

Lemma ltb_nan_r (x : float) : (x <? nan) = false.
Proof. rewrite FloatAxioms.ltb_spec. destruct (Prim2SF x); reflexivity. Qed.

End Binary64Order.

(* ================================================================= *)
(** ** More on the scan: how many peaks, the floor, the jump *)

Section ScanFacts.

Context {D : Type} {ops : DoubleOps D}.

(** Two peaks need two indices: from index [i] on, the loop pushes at
    most one peak for every two remaining indices, rounded up. *)
Lemma scan_count (mode : bool) (input : list (Peak D)) :
  SizeT.representable (List.length input) ->
  (2 <= List.length input)%nat ->
  forall (fuel : nat) (i : Z) (output picked : list (Peak D)),
    (2 <= i)%Z ->
    scan fuel mode input i output = Ok picked ->
    (2 * Z.of_nat (List.length picked)
     <= 2 * Z.of_nat (List.length output) + Z.max 0 (size input - 1 - i))%Z.
Proof.
  intros Hrep Hlen. unfold SizeT.representable in Hrep.
  assert (Hbound : SizeT.sub (size input) 2 = (size input - 2)%Z).
  { apply sub_small. unfold size. lia. }
  induction fuel as [| fuel IH]; intros i output picked Hi; cbn [scan];
    rewrite Hbound.
  - destruct (Z.ltb_spec i (size input - 2)); [discriminate |].
    intros [= <-]. lia.
  - destruct (Z.ltb_spec i (size input - 2)) as [Hlt | Hge];
      [| intros [= <-]; lia].
    assert (Hin : window_in_bounds input i).
    { unfold window_in_bounds, SizeT.representable. lia. }
    destruct (read_window_in_bounds Hin)
      as (l2 & l1 & c & r1 & r2 & _ & _ & _ & _ & _ & Hw).
    assert (Hstep := @scan_step_window D ops mode input i output c l1 r1 l2 r2).
    rewrite Hstep; [| lia | unfold size in *; lia | exact Hw].
    destruct (peak_core c l1 r1 l2 r2); cbn [bind];
      [destruct (compOK (computeTPG l1 c r1)) |];
      intros Hscan; apply IH in Hscan; try lia.
    rewrite length_app in Hscan. cbn [List.length] in Hscan. lia.
Qed.

(** X8.  [pick] pushes at most one peak for every two indices it can
    examine: its output is empty, or twice the number of output peaks
    plus three is at most the number of input samples. *)
Theorem pick_peak_count {ext : Collaborators D} (param_ : Param)
        (input output : MSSpectrum) :
  SizeT.representable (List.length (peaks input)) ->
  match pick param_ input output with
  | Ok out =>
      peaks out = [] \/
      (2 * List.length (peaks out) + 3 <= List.length (peaks input))%nat
  | Err _ => True
  end.
Proof.
  intros Hrep. rewrite pick_unfold.
  destruct (scan (S (List.length (peaks input))) (intensity_type_area param_)
                 (peaks input) 2 []) as [picked | e] eqn:Hscan;
    cbn [bind peaks]; [| exact I].
  destruct (Nat.lt_ge_cases (List.length (peaks input)) 2) as [Hshort | Hlen].
  { simpl scan in Hscan.
    rewrite sub_underflow in Hscan by (unfold size; lia).
    destruct (Z.ltb_spec 2 (SizeT.modulus - 2 + size (peaks input)))
      as [_ | H]; [| rewrite modulus_value in H; unfold size in H; lia].
    unfold scan_step, read_window in Hscan.
    rewrite (@at_out_of_range _ (peaks input) 2) in Hscan by lia.
    discriminate. }
  eapply scan_count in Hscan; [| exact Hrep | exact Hlen | lia].
  unfold size in Hscan. cbn [List.length] in Hscan.
  destruct picked as [| p picked]; [left; reflexivity | right].
  cbn [List.length] in *. lia.
Qed.

(** A centre whose intensity is not above 1.0 is no peak core. *)
Lemma peak_core_floor (c l1 r1 l2 r2 : Peak D) :
  (getIntensity c >? lit_1_0)%dbl = false -> peak_core c l1 r1 l2 r2 = false.
Proof. intros H. unfold peak_core. cbv zeta. rewrite H. reflexivity. Qed.

Lemma scan_floor (mode : bool) (input : list (Peak D)) :
  SizeT.representable (List.length input) ->
  (2 <= List.length input)%nat ->
  Forall (fun p => (getIntensity p >? lit_1_0)%dbl = false) input ->
  forall (fuel : nat) (i : Z) (output : list (Peak D)),
    (2 <= i)%Z ->
    (size input - i <= Z.of_nat fuel)%Z ->
    scan fuel mode input i output = Ok output.
Proof.
  intros Hrep Hlen Hfloor. unfold SizeT.representable in Hrep.
  assert (Hbound : SizeT.sub (size input) 2 = (size input - 2)%Z).
  { apply sub_small. unfold size. lia. }
  induction fuel as [| fuel IH]; intros i output Hi Hfuel; simpl;
    rewrite Hbound.
  - destruct (Z.ltb_spec i (size input - 2)); [lia | reflexivity].
  - destruct (Z.ltb_spec i (size input - 2)) as [Hlt | Hge]; [| reflexivity].
    assert (Hin : window_in_bounds input i).
    { unfold window_in_bounds, SizeT.representable. lia. }
    destruct (read_window_in_bounds Hin)
      as (l2 & l1 & c & r1 & r2 & _ & _ & Hc & _ & _ & Hw).
    assert (Hstep := @scan_step_window D ops mode input i output c l1 r1 l2 r2).
    rewrite Hstep; [| lia | unfold size in *; lia | exact Hw].
    rewrite peak_core_floor.
    + simpl. apply IH; lia.
    + rewrite Forall_forall in Hfloor. apply Hfloor.
      eapply nth_error_In, Hc.
Qed.

(** X9.  On a spectrum where no intensity is above 1.0, [pick] returns
    and pushes no peak. *)
Theorem pick_below_floor {ext : Collaborators D} (param_ : Param)
        (input output : MSSpectrum) :
  SizeT.representable (List.length (peaks input)) ->
  (2 <= List.length (peaks input))%nat ->
  Forall (fun p => (getIntensity p >? lit_1_0)%dbl = false) (peaks input) ->
  exists out, pick param_ input output = Ok out /\ peaks out = [].
Proof.
  intros Hrep Hlen Hfloor. rewrite pick_unfold.
  rewrite (@scan_floor (intensity_type_area param_) (peaks input)
             Hrep Hlen Hfloor (S (List.length (peaks input))) 2%Z [])
    by (unfold size; lia).
  eexists. split; reflexivity.
Qed.

(** Where [<] is asymmetric, the right neighbour of a candidate fails
    the test: it would have to rise above the candidate. *)
Lemma neighbour_rejected :
  (forall a b : D, (a <? b)%dbl = true -> (b <? a)%dbl = false) ->
  forall (input : list (Peak D)) (i : Z),
    window_in_bounds input i ->
    window_in_bounds input (i + 1) ->
    is_candidate input i = Ok true ->
    is_candidate input (i + 1) = Ok false.
Proof.
  intros Hasym input i Hin Hin' Hcand.
  destruct (read_window_in_bounds Hin)
    as (l2 & l1 & c & r1 & r2 & _ & _ & Hc & Hr1 & _ & Hw).
  destruct (read_window_in_bounds Hin')
    as (l2' & l1' & c' & r1' & r2' & _ & Hl1' & Hc' & _ & _ & Hw').
  replace (i + 1 - 1)%Z with i in Hl1' by lia.
  assert (l1' = c) by congruence. assert (c' = r1) by congruence. subst l1' c'.
  apply is_candidate_window in Hw, Hw'.
  rewrite Hw in Hcand. injection Hcand as Hcore.
  rewrite Hw'. f_equal.
  destruct (peak_core r1 c r1' l2' r2') eqn:Hcore'; [| reflexivity].
  apply peak_core_candidate_apex in Hcore, Hcore'.
  destruct Hcore as (_ & _ & _ & _ & Hdown).
  destruct Hcore' as (_ & _ & (_ & Hup) & _).
  unfold lt in *. rewrite (Hasym _ _ Hdown) in Hup. discriminate.
Qed.

End ScanFacts.

Section ModeFacts.

Context {D : Type} {ops : DoubleOps D}.

(** The two intensity conventions walk the same indices and push
    peaks with the same m/z. *)
Lemma scan_mz_any_mode (input : list (Peak D)) :
  forall (fuel : nat) (i : Z) (out1 out2 : list (Peak D)),
    map (@getMZ D) out1 = map (@getMZ D) out2 ->
    match scan fuel true input i out1, scan fuel false input i out2 with
    | Ok a, Ok b => map (@getMZ D) a = map (@getMZ D) b
    | Err e1, Err e2 => e1 = e2
    | _, _ => False
    end.
Proof.
  induction fuel as [| fuel IH]; intros i out1 out2 Hout; cbn [scan];
    destruct (i <? SizeT.sub (size input) 2)%Z; try exact Hout;
    try reflexivity.
  unfold scan_step.
  destruct (read_window input i) as [[[[[c l1] r1] l2] r2] | e]; cbn [bind];
    [| reflexivity].
  destruct (peak_core c l1 r1 l2 r2); cbn [bind]; [| apply IH, Hout].
  destruct (at_ input (SizeT.sub i 1)) as [p1 | e]; cbn [bind];
    [| reflexivity].
  destruct (at_ input i) as [p2 | e]; cbn [bind]; [| reflexivity].
  destruct (at_ input (SizeT.add i 1)) as [p3 | e]; cbn [bind];
    [| reflexivity].
  apply IH. destruct (compOK (computeTPG p1 p2 p3)); [| exact Hout].
  rewrite !map_app, Hout. reflexivity.
Qed.

(** X14.  The option values change the pushed intensities only: two
    runs of [pick] on one input, under any two settings, both return or
    both fail with the same error, and when they return the picked
    peaks have the same m/z, one for one. *)
Theorem pick_mz_any_intensity_type {ext : Collaborators D}
        (type1 type2 : string) (ms1 ms2 : bool)
        (input output1 output2 : MSSpectrum) :
  match pick (mkParam type1 ms1) input output1,
        pick (mkParam type2 ms2) input output2 with
  | Ok out1, Ok out2 =>
      map (@getMZ D) (peaks out1) = map (@getMZ D) (peaks out2)
  | Err e1, Err e2 => e1 = e2
  | _, _ => False
  end.
Proof.
  rewrite !pick_unfold.
  assert (Hmode : forall b1 b2 : bool,
             match scan (S (List.length (peaks input))) b1 (peaks input) 2 [],
                   scan (S (List.length (peaks input))) b2 (peaks input) 2 []
             with
             | Ok a, Ok b => map (@getMZ D) a = map (@getMZ D) b
             | Err e1, Err e2 => e1 = e2
             | _, _ => False
             end).
  { intros b1 b2.
    assert (H := @scan_mz_any_mode (peaks input)
                   (S (List.length (peaks input))) 2%Z [] [] eq_refl).
    destruct b1, b2; try exact H.
    - destruct (scan _ true _ _ _); reflexivity.
    - destruct (scan _ false _ _ _), (scan _ true _ _ _);
        try contradiction; symmetry; exact H.
    - destruct (scan _ false _ _ _); reflexivity. }
  specialize (Hmode (intensity_type_area (mkParam type1 ms1))
                    (intensity_type_area (mkParam type2 ms2))).
  destruct (scan _ (intensity_type_area (mkParam type1 ms1)) _ _ _),
           (scan _ (intensity_type_area (mkParam type2 ms2)) _ _ _);
    cbn [bind peaks]; exact Hmode.
Qed.

End ModeFacts.

(* ================================================================= *)
(** ** The candidate test and the comparator in binary64 *)

Section Binary64Window.

Context {m : Libm}.
Local Open Scope float_scope.

(** X10.  In binary64 the right neighbour of an accepted candidate
    fails the candidate test: the jump over index [i + 1] skips no
    candidate. *)
Theorem jump_skips_no_candidate (input : list (Peak float)) (i : Z) :
  window_in_bounds input i ->
  window_in_bounds input (i + 1) ->
  is_candidate input i = Ok true ->
  is_candidate input (i + 1) = Ok false.
Proof. apply neighbour_rejected. exact ltb_asym. Qed.

Lemma sub_nan_l (x : float) : nan - x = nan.
Proof. apply Prim2SF_inj. rewrite FloatAxioms.sub_spec. reflexivity. Qed.

Lemma sub_nan_r (x : float) : x - nan = nan.
Proof.
  apply Prim2SF_inj. rewrite FloatAxioms.sub_spec.
  destruct (Prim2SF x); reflexivity.
Qed.

(** A spacing that is below something has no NaN end. *)
Lemma spacing_not_nan (a b : Peak float) (bound : float) :
  (spacing a b <? bound) = true ->
  is_nan (getMZ a) = false /\ is_nan (getMZ b) = false.
Proof.
  unfold spacing. cbn [dfabs dsub binary64]. intros H.
  split.
  - destruct (is_nan (getMZ a)) eqn:E; [| reflexivity].
    apply is_nan_eq in E. rewrite E, sub_nan_r in H.
    change (abs nan) with nan in H. rewrite ltb_nan_l in H. discriminate.
  - destruct (is_nan (getMZ b)) eqn:E; [| reflexivity].
    apply is_nan_eq in E. rewrite E, sub_nan_l in H.
    change (abs nan) with nan in H. rewrite ltb_nan_l in H. discriminate.
Qed.

Lemma above_not_nan (x bound : float) :
  (bound <? x) = true -> is_nan x = false.
Proof.
  intros H. destruct (is_nan x) eqn:E; [| reflexivity].
  apply is_nan_eq in E. rewrite E, ltb_nan_r in H. discriminate.
Qed.

Lemma peak_core_no_nan (c l1 r1 l2 r2 : Peak float) :
  peak_core c l1 r1 l2 r2 = true ->
  Forall (fun p => is_nan (getMZ p) = false /\ is_nan (getIntensity p) = false)
         [l2; l1; c; r1; r2].
Proof.
  intros H. apply peak_core_candidate_apex in H.
  destruct H as (Hint & Hsp & _ & _). cbv zeta in Hsp.
  unfold lt in *. cbn [dlt binary64] in *.
  inversion Hint as [| ? ? I2 Hint1]; subst.
  inversion Hint1 as [| ? ? I1 Hint2]; subst.
  inversion Hint2 as [| ? ? I0 Hint3]; subst.
  inversion Hint3 as [| ? ? I3 Hint4]; subst.
  inversion Hint4 as [| ? ? I4 _]; subst.
  inversion Hsp as [| ? ? S1 Hsp1]; subst.
  inversion Hsp1 as [| ? ? S2 Hsp2]; subst.
  inversion Hsp2 as [| ? ? S3 Hsp3]; subst.
  inversion Hsp3 as [| ? ? S4 _]; subst.
  apply spacing_not_nan in S1, S2, S3, S4.
  apply above_not_nan in I0, I1, I2, I3, I4.
  repeat constructor; tauto.
Qed.

(** X11.  In binary64 an index whose 5-point window holds a sample
    with a NaN m/z or a NaN intensity is not accepted as a candidate. *)
Theorem nan_sample_rejected (input : list (Peak float)) (i j : Z)
        (p : Peak float) :
  window_in_bounds input i ->
  (i - 2 <= j <= i + 2)%Z ->
  nth_error input (Z.to_nat j) = Some p ->
  is_nan (getMZ p) = true \/ is_nan (getIntensity p) = true ->
  is_candidate input i = Ok false.
Proof.
  intros Hin Hj Hp Hnan.
  destruct (read_window_in_bounds Hin)
    as (l2 & l1 & c & r1 & r2 & H2 & H1 & H0 & H3 & H4 & Hw).
  apply is_candidate_window in Hw. rewrite Hw. f_equal.
  destruct (peak_core c l1 r1 l2 r2) eqn:Hcore; [| reflexivity].
  apply peak_core_no_nan in Hcore. rewrite Forall_forall in Hcore.
  assert (Hmem : In p [l2; l1; c; r1; r2]).
  { assert (Hcases : (j = i - 2 \/ j = i - 1 \/ j = i \/ j = i + 1 \/ j = i + 2)%Z)
      by lia.
    simpl.
    destruct Hcases as [-> | [-> | [-> | [-> | ->]]]];
      [left | right; left | do 2 right; left | do 3 right; left
       | do 4 right; left]; congruence. }
  destruct (Hcore p Hmem) as [Hm Hi].
  destruct Hnan as [Hn | Hn]; congruence.
Qed.

(** *** CmpPeakByIntensity *)

(** X1.  In binary64 [CmpPeakByIntensity] is a strict order on peaks:
    irreflexive, asymmetric and transitive, NaN intensities
    included. *)
Theorem CmpPeakByIntensity_strict_order :
  (forall x : Peak float, CmpPeakByIntensity x x = false)
  /\ (forall x y : Peak float,
         CmpPeakByIntensity x y = true -> CmpPeakByIntensity y x = false)
  /\ (forall x y z : Peak float,
         CmpPeakByIntensity x y = true -> CmpPeakByIntensity y z = true ->
         CmpPeakByIntensity x z = true).
Proof.
  unfold CmpPeakByIntensity. cbn [dlt binary64]. repeat split.
  - intros x. apply ltb_irrefl.
  - intros x y. apply ltb_asym.
  - intros x y z Hxy Hyz. eapply ltb_trans; eassumption.
Qed.

(** X2.  In binary64 a peak with a NaN intensity compares false with
    every peak in both directions; it ties with two peaks that
    [CmpPeakByIntensity] orders strictly, so ties are not transitive
    once such a peak is present. *)
Theorem CmpPeakByIntensity_nan (n x y : Peak float) :
  is_nan (getIntensity n) = true ->
  CmpPeakByIntensity x y = true ->
  (CmpPeakByIntensity x n = false /\ CmpPeakByIntensity n x = false)
  /\ (CmpPeakByIntensity n y = false /\ CmpPeakByIntensity y n = false)
  /\ ~ (CmpPeakByIntensity x y = false /\ CmpPeakByIntensity y x = false).
Proof.
  intros Hn Hxy. split; [| split].
  - unfold CmpPeakByIntensity. cbn [dlt binary64].
    apply is_nan_eq in Hn. rewrite Hn. split; [apply ltb_nan_l | apply ltb_nan_r].
  - unfold CmpPeakByIntensity. cbn [dlt binary64].
    apply is_nan_eq in Hn. rewrite Hn. split; [apply ltb_nan_r | apply ltb_nan_l].
  - intros [H _]. congruence.
Qed.

End Binary64Window.

Section Binary64Spacing.

Context {m : Libm}.
Local Open Scope float_scope.

Lemma abs_cases (x : float) :
  abs x = nan \/ abs x = 0 \/ (0 <? abs x) = true.
Proof.
  rewrite FloatAxioms.ltb_spec.
  assert (H := FloatAxioms.abs_spec x).
  destruct (Prim2SF x) as [s | s | | s mx ex]; simpl in H.
  - right. left. apply Prim2SF_inj. rewrite H. reflexivity.
  - right. right. rewrite H. reflexivity.
  - left. apply Prim2SF_inj. rewrite H. reflexivity.
  - right. right. rewrite H. reflexivity.
Qed.

(** Two distances of which each is below 1.5 times the smaller one are
    both above zero. *)
Lemma regular_spacing_positive (l r : float) :
  (abs l <? 1.5 * min_spacing (abs l) (abs r)) = true ->
  (abs r <? 1.5 * min_spacing (abs l) (abs r)) = true ->
  (0 <? abs l) = true /\ (0 <? abs r) = true.
Proof.
  unfold min_spacing. cbn [dlt binary64].
  destruct (abs_cases l) as [El | [El | Hl]];
    destruct (abs_cases r) as [Er | [Er | Hr]];
    try rewrite El; try rewrite Er; intros H1 H2;
    try (rewrite ltb_nan_l in H1; discriminate);
    try (rewrite ltb_nan_l in H2; discriminate);
    try (vm_compute in H1; discriminate).
  - rewrite Hr in H1. vm_compute in H1. discriminate.
  - rewrite (ltb_asym Hl) in H2. vm_compute in H2. discriminate.
  - split; assumption.
Qed.

(** X12.  In binary64, at an accepted candidate the distance in m/z
    from the centre to each of its two neighbours is above zero: the
    fit is never run on a triplet whose centre repeats a neighbour's
    m/z. *)
Theorem candidate_distinct_neighbours (input : list (Peak float)) (i : Z)
        (p1 p2 p3 : Peak float) :
  window_in_bounds input i ->
  is_candidate input i = Ok true ->
  nth_error input (Z.to_nat (i - 1)) = Some p1 ->
  nth_error input (Z.to_nat i) = Some p2 ->
  nth_error input (Z.to_nat (i + 1)) = Some p3 ->
  (0 <? spacing p1 p2) = true /\ (0 <? spacing p2 p3) = true.
Proof.
  intros Hin Hcand Hp1 Hp2 Hp3.
  destruct (read_window_in_bounds Hin)
    as (l2 & l1 & c & r1 & r2 & _ & H1 & H0 & H3 & _ & Hw).
  assert (l1 = p1) by congruence. assert (c = p2) by congruence.
  assert (r1 = p3) by congruence. subst l1 c r1.
  apply is_candidate_window in Hw. rewrite Hw in Hcand.
  injection Hcand as Hcore. apply peak_core_candidate_apex in Hcore.
  destruct Hcore as (_ & Hsp & _). cbv zeta in Hsp.
  inversion Hsp as [| ? ? S1 Hsp1]; subst.
  inversion Hsp1 as [| ? ? _ Hsp2]; subst.
  inversion Hsp2 as [| ? ? S3 _]; subst.
  unfold lt, minimum, spacing in *. cbn [dlt dmul dfabs dsub lit_1_5 binary64] in *.
  apply regular_spacing_positive; assumption.
Qed.

End Binary64Spacing.

(* ================================================================= *)
(** ** More on the experiment driver *)

Section DriverMore.

Context {D : Type} {ops : DoubleOps D} {ext : Collaborators D}.

(** [pick] returns exactly on the spectra with at least two samples. *)
Lemma pick_Ok_iff (param_ : Param) (input output : MSSpectrum) :
  SizeT.representable (List.length (peaks input)) ->
  (exists out, pick param_ input output = Ok out)
  <-> (2 <= List.length (peaks input))%nat.
Proof.
  intros Hrep. rewrite pick_unfold. split.
  - intros [out Hpick].
    destruct (Nat.lt_ge_cases (List.length (peaks input)) 2) as [Hshort | Hlen];
      [| exact Hlen].
    simpl scan in Hpick.
    rewrite sub_underflow in Hpick by (unfold size; lia).
    destruct (Z.ltb_spec 2 (SizeT.modulus - 2 + size (peaks input)))
      as [_ | H]; [| rewrite modulus_value in H; unfold size in H; lia].
    unfold scan_step, read_window in Hpick.
    rewrite (@at_out_of_range _ (peaks input) 2) in Hpick by lia.
    discriminate.
  - intros Hlen.
    destruct (@scan_returns D ops (intensity_type_area param_) (peaks input)
                Hrep Hlen (S (List.length (peaks input))) 2%Z [])
      as [picked Hscan]; [lia | unfold size; lia |].
    rewrite Hscan. eexists. reflexivity.
Qed.

Lemma map_result_Ok_iff {A B : Type} (f : A -> result B) (l : list A) :
  (exists outs, map_result f l = Ok outs)
  <-> Forall (fun a => exists b, f a = Ok b) l.
Proof.
  induction l as [| a l IH]; simpl.
  - split; [constructor | intros _; eexists; reflexivity].
  - split.
    + intros [outs H].
      destruct (f a) as [b | e] eqn:Ha; [| discriminate].
      destruct (map_result f l) as [bs | e] eqn:Hl; [| discriminate].
      constructor; [exists b; exact Ha | apply IH; exists bs; reflexivity].
    + intros H. inversion H as [| ? ? [b Hb] Hl]; subst.
      apply IH in Hl. destruct Hl as [bs Hbs].
      rewrite Hb, Hbs. eexists. reflexivity.
Qed.

Lemma pass_or_pick_Ok_iff (param_ : Param) (s : MSSpectrum) :
  SizeT.representable (List.length (peaks s)) ->
  (exists o, pass_or_pick param_ s = Ok o)
  <-> (ms1_only param_ = true /\ getMSLevel s <> 1%Z)
      \/ (2 <= List.length (peaks s))%nat.
Proof.
  intros Hrep. unfold pass_or_pick, passes_through.
  destruct (ms1_only param_); cbn [andb].
  - destruct (Z.eqb_spec (getMSLevel s) 1) as [Hl | Hl]; cbn [negb].
    + rewrite (pick_Ok_iff param_ s MSSpectrum_new Hrep).
      split; [auto | intros [[_ H] | H]; [contradiction | exact H]].
    + split; [auto | intros _; exists s; reflexivity].
  - rewrite (pick_Ok_iff param_ s MSSpectrum_new Hrep).
    split; [auto | intros [[H _] | H]; [discriminate | exact H]].
Qed.

(** X15.  [pickExperiment] returns exactly when every spectrum it has
    to pick, that is every spectrum that does not pass through, has at
    least two samples. *)
Theorem pickExperiment_returns_iff (param_ : Param)
        (input output : MSExperiment) :
  SizeT.representable (List.length (spectra input)) ->
  Forall (fun s => SizeT.representable (List.length (peaks s)))
         (spectra input) ->
  (exists r, pickExperiment param_ input output = Ok r)
  <-> Forall (fun s => (ms1_only param_ = true /\ getMSLevel s <> 1%Z)
                       \/ (2 <= List.length (peaks s))%nat)
             (spectra input).
Proof.
  intros Hrep Hreps.
  assert (Hmap := pickExperiment_map_result param_ input output Hrep).
  assert (Hiff : (exists r, pickExperiment param_ input output = Ok r)
                 <-> exists outs,
                     map_result (pass_or_pick param_) (spectra input) = Ok outs).
  { destruct (map_result (pass_or_pick param_) (spectra input)) as [outs | e].
    - destruct Hmap as [log Hlog]. rewrite Hlog.
      split; intros _; eexists; reflexivity.
    - rewrite Hmap. split; intros [? H]; discriminate. }
  rewrite Hiff, map_result_Ok_iff, !Forall_forall.
  rewrite Forall_forall in Hreps.
  split; intros H s Hs; apply (pass_or_pick_Ok_iff param_ s (Hreps s Hs));
    apply H, Hs.
Qed.

(** The progress calls of the driver's loop. *)
Lemma driver_loop_log (param_ : Param) :
  forall (post pre done blanks : list MSSpectrum) (fuel : nat)
         (log : list ProgressEvent) (st : DriverState),
    List.length done = List.length pre ->
    List.length blanks = List.length post ->
    SizeT.representable (List.length (pre ++ post)) ->
    driver_loop fuel param_ (ms1_only param_) (pre ++ post)
                (mkDriverState (Z.of_nat (List.length pre))
                               (done ++ blanks)
                               (Z.of_nat (List.length pre)) log) = Ok st ->
    progress_log st
    = log ++ map (fun k => setProgress (Z.of_nat k))
                 (seq (S (List.length pre)) (List.length post)).
Proof.
  induction post as [| s post IH];
    intros pre done blanks fuel log st Hdone Hblanks Hrep.
  - destruct fuel; cbn [driver_loop scan_idx]; unfold size;
      rewrite app_nil_r, Z.eqb_refl; intros [= <-]; simpl;
      now rewrite app_nil_r.
  - destruct blanks as [| b blanks]; [discriminate |].
    assert (Hneq : (Z.of_nat (List.length pre) =? size (pre ++ s :: post))%Z
                   = false).
    { apply Z.eqb_neq. unfold size. rewrite length_app. simpl. lia. }
    destruct fuel as [| fuel]; cbn [driver_loop scan_idx]; rewrite Hneq;
      [discriminate |].
    rewrite driver_step_at by assumption.
    destruct (pass_or_pick param_ s) as [o | e]; cbn [bind]; [| discriminate].
    assert (Hcount : SizeT.add (Z.of_nat (List.length pre)) 1
                     = Z.of_nat (List.length (pre ++ [s]))).
    { unfold SizeT.representable in Hrep. rewrite length_app in Hrep.
      simpl in Hrep. rewrite add_small by lia.
      rewrite length_app. simpl. lia. }
    rewrite Hcount. intros Hloop.
    specialize (IH (pre ++ [s]) (done ++ [o]) blanks fuel
                   (log ++ [setProgress (Z.of_nat (List.length (pre ++ [s])))])
                   st).
    rewrite <- app_assoc in IH. simpl in IH.
    rewrite IH; try assumption.
    + rewrite <- app_assoc. simpl.
      rewrite !length_app. simpl.
      replace (List.length pre + 1)%nat with (S (List.length pre)) by lia.
      reflexivity.
    + rewrite !length_app. simpl. lia.
    + simpl in Hblanks. lia.
Qed.

(** X16.  When [pickExperiment] returns, the progress logger has
    received [startProgress(0, n, "picking peaks")], then
    [setProgress(1)] to [setProgress(n)] in order, then [endProgress],
    where [n] is the number of spectra. *)
Theorem pickExperiment_progress (param_ : Param)
        (input output : MSExperiment) :
  SizeT.representable (List.length (spectra input)) ->
  match pickExperiment param_ input output with
  | Ok (_, log) =>
      log = startProgress 0 (Z.of_nat (List.length (spectra input)))
                          "picking peaks"
            :: map (fun k => setProgress (Z.of_nat k))
                   (seq 1 (List.length (spectra input)))
            ++ [endProgress]
  | Err _ => True
  end.
Proof.
  intros Hrep. unfold pickExperiment.
  cbn [MSExperiment_clear spectra experimental_settings].
  assert (Hresize : resize [] (size (spectra input))
                    = repeat MSSpectrum_new (List.length (spectra input))).
  { unfold resize, size. rewrite Nat2Z.id, firstn_nil. simpl.
    now rewrite Nat.sub_0_r. }
  rewrite Hresize.
  destruct (driver_loop (List.length (spectra input)) param_ (ms1_only param_)
              (spectra input)
              (mkDriverState 0 (repeat MSSpectrum_new
                                       (List.length (spectra input))) 0
                 [startProgress 0 (size (spectra input)) "picking peaks"]))
    as [st | e] eqn:Hloop; cbn [bind]; [| exact I].
  apply (@driver_loop_log param_ (spectra input) [] []
           (repeat MSSpectrum_new (List.length (spectra input)))) in Hloop.
  - rewrite Hloop. reflexivity.
  - reflexivity.
  - apply repeat_length.
  - exact Hrep.
Qed.

End DriverMore.

(* ================================================================= *)
(** ** What the output of [pick] consists of *)

Section OutputFacts.

Context {D : Type} {ops : DoubleOps D}.

(** What holds of every peak the loop can push holds of every peak of
    its result. *)
Lemma scan_invariant (Q : Peak D -> Prop) (mode : bool) (input : list (Peak D)) :
  SizeT.representable (List.length input) ->
  (2 <= List.length input)%nat ->
  (forall (i : Z) (c l1 r1 l2 r2 : Peak D),
      window_in_bounds input i ->
      read_window input i = Ok (c, l1, r1, l2, r2) ->
      peak_core c l1 r1 l2 r2 = true ->
      compOK (computeTPG l1 c r1) = true ->
      Q (picked_peak mode (computeTPG l1 c r1))) ->
  forall (fuel : nat) (i : Z) (output picked : list (Peak D)),
    (2 <= i)%Z ->
    scan fuel mode input i output = Ok picked ->
    Forall Q output -> Forall Q picked.
Proof.
  intros Hrep Hlen Hpush. unfold SizeT.representable in Hrep.
  assert (Hbound : SizeT.sub (size input) 2 = (size input - 2)%Z).
  { apply sub_small. unfold size. lia. }
  induction fuel as [| fuel IH]; intros i output picked Hi; cbn [scan];
    rewrite Hbound.
  - destruct (Z.ltb_spec i (size input - 2)); [discriminate |].
    intros [= <-] Hq. exact Hq.
  - destruct (Z.ltb_spec i (size input - 2)) as [Hlt | Hge];
      [| intros [= <-] Hq; exact Hq].
    assert (Hin : window_in_bounds input i).
    { unfold window_in_bounds, SizeT.representable. lia. }
    destruct (read_window_in_bounds Hin)
      as (l2 & l1 & c & r1 & r2 & _ & _ & _ & _ & _ & Hw).
    assert (Hstep := @scan_step_window D ops mode input i output c l1 r1 l2 r2).
    rewrite Hstep; [| lia | unfold size in *; lia | exact Hw].
    destruct (peak_core c l1 r1 l2 r2) eqn:Hcore; cbn [bind];
      [destruct (compOK (computeTPG l1 c r1)) eqn:Hok |];
      intros Hscan Hq; eapply IH; try exact Hscan; try exact Hq; try lia.
    apply Forall_app. split; [exact Hq |].
    constructor; [| constructor]. eapply Hpush; eassumption.
Qed.

(** The result of the loop keeps the output it started from. *)
Lemma scan_extends (mode : bool) (input : list (Peak D)) :
  forall (fuel : nat) (i : Z) (output picked : list (Peak D)),
    scan fuel mode input i output = Ok picked ->
    exists pushed, picked = output ++ pushed.
Proof.
  induction fuel as [| fuel IH]; intros i output picked; cbn [scan];
    destruct (i <? SizeT.sub (size input) 2)%Z; try discriminate;
    try (intros [= <-]; exists []; now rewrite app_nil_r).
  destruct (scan_step mode input i output) as [[i' output'] | e] eqn:Hstep;
    cbn [bind]; [| discriminate].
  intros Hscan. apply IH in Hscan. destruct Hscan as [pushed ->].
  unfold scan_step in Hstep.
  destruct (read_window input i) as [[[[[c l1] r1] l2] r2] | e];
    cbn [bind] in Hstep; [| discriminate].
  destruct (peak_core c l1 r1 l2 r2); cbn [bind] in Hstep.
  - destruct (at_ input (SizeT.sub i 1)) as [p1 | e]; cbn [bind] in Hstep;
      [| discriminate].
    destruct (at_ input i) as [p2 | e]; cbn [bind] in Hstep; [| discriminate].
    destruct (at_ input (SizeT.add i 1)) as [p3 | e]; cbn [bind] in Hstep;
      [| discriminate].
    cbv zeta in Hstep.
    destruct (compOK (computeTPG p1 p2 p3)); injection Hstep as _ <-.
    + rewrite <- app_assoc. eexists. reflexivity.
    + eexists. reflexivity.
  - injection Hstep as _ <-. eexists. reflexivity.
Qed.

(** Where [<] is asymmetric, every candidate at or after the current
    index whose fit is valid has its peak in the result. *)
Lemma scan_complete (mode : bool) (input : list (Peak D)) :
  (forall a b : D, (a <? b)%dbl = true -> (b <? a)%dbl = false) ->
  SizeT.representable (List.length input) ->
  (2 <= List.length input)%nat ->
  forall (fuel : nat) (i : Z) (output picked : list (Peak D)),
    (2 <= i)%Z ->
    scan fuel mode input i output = Ok picked ->
    forall (j : Z) (c l1 r1 l2 r2 : Peak D),
      (i <= j)%Z ->
      window_in_bounds input j ->
      read_window input j = Ok (c, l1, r1, l2, r2) ->
      peak_core c l1 r1 l2 r2 = true ->
      compOK (computeTPG l1 c r1) = true ->
      In (picked_peak mode (computeTPG l1 c r1)) picked.
Proof.
  intros Hasym Hrep Hlen. assert (Hrep' := Hrep).
  unfold SizeT.representable in Hrep.
  assert (Hbound : SizeT.sub (size input) 2 = (size input - 2)%Z).
  { apply sub_small. unfold size. lia. }
  induction fuel as [| fuel IH]; intros i output picked Hi; cbn [scan];
    rewrite Hbound.
  - destruct (Z.ltb_spec i (size input - 2)); [discriminate |].
    intros _ j c l1 r1 l2 r2 Hj (_ & _ & Hhi). lia.
  - destruct (Z.ltb_spec i (size input - 2)) as [Hlt | Hge];
      [| intros _ j c l1 r1 l2 r2 Hj (_ & _ & Hhi); lia].
    assert (Hin : window_in_bounds input i).
    { unfold window_in_bounds, SizeT.representable. lia. }
    destruct (read_window_in_bounds Hin)
      as (l2' & l1' & c' & r1' & r2' & _ & _ & _ & _ & _ & Hw').
    assert (Hstep := @scan_step_window D ops mode input i output
                       c' l1' r1' l2' r2').
    rewrite Hstep; [| lia | unfold size in *; lia | exact Hw'].
    intros Hscan j c l1 r1 l2 r2 Hj Hinj Hw Hcore Hok.
    destruct (Z.eq_dec j i) as [-> | Hne].
    + rewrite Hw in Hw'. injection Hw' as <- <- <- <- <-.
      rewrite Hcore in Hscan. cbn [bind] in Hscan. rewrite Hok in Hscan.
      apply scan_extends in Hscan. destruct Hscan as [pushed ->].
      apply in_or_app. left. apply in_or_app. right. left. reflexivity.
    + destruct (peak_core c' l1' r1' l2' r2') eqn:Hcore'; cbn [bind] in Hscan.
      * destruct (Z.eq_dec j (i + 1)) as [-> | Hne'].
        -- assert (Hi1 : is_candidate input i = Ok true)
             by (rewrite (@is_candidate_window _ _ _ _ _ _ _ _ _ Hw'), Hcore'; reflexivity).
           assert (Hi2 : is_candidate input (i + 1) = Ok false)
             by (apply neighbour_rejected; assumption).
           rewrite (@is_candidate_window _ _ _ _ _ _ _ _ _ Hw), Hcore in Hi2. discriminate.
        -- eapply IH; [| exact Hscan | | exact Hinj | exact Hw | exact Hcore
                       | exact Hok]; lia.
      * eapply IH; [| exact Hscan | | exact Hinj | exact Hw | exact Hcore
                    | exact Hok]; lia.
Qed.


Context {ext : Collaborators D}.

(** X17.  [pick] invents no peak: every peak of its output is the peak
    of an accepted fit at some index whose window lies inside the
    input. *)
Theorem pick_peaks_are_fits (param_ : Param) (input output out : MSSpectrum) :
  SizeT.representable (List.length (peaks input)) ->
  pick param_ input output = Ok out ->
  Forall (fun p => exists i : Z,
              window_in_bounds (peaks input) i /\
              accepted_fit (intensity_type_area param_) (peaks input) i p)
         (peaks out).
Proof.
  intros Hrep Hpick.
  assert (Hlen : (2 <= List.length (peaks input))%nat).
  { apply (pick_Ok_iff param_ input output Hrep). exists out. exact Hpick. }
  rewrite pick_unfold in Hpick.
  destruct (scan _ _ _ _ _) as [picked | e] eqn:Hscan; cbn [bind] in Hpick;
    [| discriminate].
  injection Hpick as <-. cbn [peaks].
  eapply scan_invariant; [exact Hrep | exact Hlen | | | exact Hscan | constructor].
  - intros i c l1 r1 l2 r2 Hin Hw Hcore Hok. exists i. split; [exact Hin |].
    exists c, l1, r1, l2, r2. repeat split; assumption.
  - lia.
Qed.

End OutputFacts.

Section Binary64Output.

Context {m : Libm} {ext : Collaborators float}.

(** X18.  In binary64 [pick] loses no peak: the peak of every accepted
    fit, at any index whose window lies inside the input, is in the
    output. *)
Theorem pick_complete (param_ : Param) (input output out : MSSpectrum)
        (i : Z) (p : Peak float) :
  SizeT.representable (List.length (peaks input)) ->
  pick param_ input output = Ok out ->
  window_in_bounds (peaks input) i ->
  accepted_fit (intensity_type_area param_) (peaks input) i p ->
  In p (peaks out).
Proof.
  intros Hrep Hpick Hin (c & l1 & r1 & l2 & r2 & Hw & Hcore & Hok & ->).
  assert (Hlen : (2 <= List.length (peaks input))%nat).
  { apply (pick_Ok_iff param_ input output Hrep). exists out. exact Hpick. }
  rewrite pick_unfold in Hpick.
  destruct (scan _ _ _ _ _) as [picked | e] eqn:Hscan; cbn [bind] in Hpick;
    [| discriminate].
  injection Hpick as <-. cbn [peaks].
  eapply (@scan_complete float binary64); try eassumption.
  - exact ltb_asym.
  - lia.
  - destruct Hin as (_ & Hlo & _). exact Hlo.
Qed.

End Binary64Output.

(* ================================================================= *)
(** ** Separate objects: the store functions and the value functions *)

Section Separate.

Context {D : Type} {ops : DoubleOps D} {ext : Collaborators D}.
Context {H : Type}.

Variables input output : Ref H MSSpectrum.

(** [written h0 o h]: the store [h] is [h0] with [o] assigned to the
    output object. *)
Variable written : H -> MSSpectrum -> H -> Prop.

Hypothesis written_load :
  forall h0 o h, written h0 o h -> load output h = Ok o.
Hypothesis written_input :
  forall h0 o h, written h0 o h -> load input h = load input h0.
Hypothesis written_store :
  forall h0 o h v, written h0 o h ->
    exists h', store output h v = Ok h' /\ written h0 v h'.

Lemma modify_written (f : MSSpectrum -> MSSpectrum) (h0 h : H) (o : MSSpectrum) :
  written h0 o h ->
  exists h', modify output f h = Ok h' /\ written h0 (f o) h'.
Proof.
  intros Hw. unfold modify. rewrite (written_load Hw). cbn [bind].
  apply (written_store (f o) Hw).
Qed.

Lemma scan_ref_written (mode : bool) (h0 : H) (s : MSSpectrum) :
  load input h0 = Ok s ->
  forall (fuel : nat) (i : Z) (h : H) (o : MSSpectrum),
    written h0 o h ->
    match scan fuel mode (peaks s) i (peaks o) with
    | Ok picked =>
        exists h',
          scan_ref fuel mode input output i h = Ok h' /\
          written h0 (mkMSSpectrum (settings o) (meta_info o) (getRT o)
                                   (getMSLevel o) (getName o) picked) h'
    | Err e => scan_ref fuel mode input output i h = Err e
    end.
Proof.
  intros Hin.
  assert (Hsame : forall o h, written h0 o h ->
                    written h0 (mkMSSpectrum (settings o) (meta_info o) (getRT o)
                                  (getMSLevel o) (getName o) (peaks o)) h).
  { intros o h Hw. destruct o. exact Hw. }
  induction fuel as [| fuel IH]; intros i h o Hw; cbn [scan scan_ref];
    rewrite (written_input Hw), Hin; cbn [bind];
    destruct (i <? SizeT.sub (size (peaks s)) 2)%Z;
    try reflexivity; try (exists h; split; [reflexivity | apply Hsame, Hw]).
  unfold scan_step, scan_step_ref.
  rewrite (written_input Hw), Hin. cbn [bind].
  destruct (read_window (peaks s) i) as [[[[[c l1] r1] l2] r2] | e];
    cbn [bind]; [| reflexivity].
  destruct (peak_core c l1 r1 l2 r2); cbn [bind].
  - destruct (at_ (peaks s) (SizeT.sub i 1)) as [p1 | e]; cbn [bind];
      [| reflexivity].
    destruct (at_ (peaks s) i) as [p2 | e]; cbn [bind]; [| reflexivity].
    destruct (at_ (peaks s) (SizeT.add i 1)) as [p3 | e]; cbn [bind];
      [| reflexivity].
    cbv zeta. destruct (compOK (computeTPG p1 p2 p3)).
    + destruct (modify_written (push_back (picked_peak mode (computeTPG p1 p2 p3))) Hw)
        as (h1 & -> & Hw1).
      cbn [bind]. exact (IH _ _ _ Hw1).
    + cbn [bind]. exact (IH _ _ _ Hw).
  - exact (IH _ _ _ Hw).
Qed.

(** On separate objects [pick_ref] assigns to the output object what
    [pick] returns, and fails where [pick] fails. *)
Lemma pick_ref_written (param_ : Param) (h0 : H) (s o : MSSpectrum) :
  load input h0 = Ok s ->
  written h0 o h0 ->
  match pick param_ s o with
  | Ok out =>
      exists h', pick_ref param_ input output h0 = Ok h' /\ written h0 out h'
  | Err e => pick_ref param_ input output h0 = Err e
  end.
Proof.
  intros Hin Hw0. unfold pick_ref. rewrite Hin. cbn [bind]. cbv zeta.
  destruct (modify_written (fun o => clear o true) Hw0) as (h1 & -> & Hw1).
  cbn [bind]. rewrite (written_input Hw1), Hin. cbn [bind].
  destruct (modify_written
              (fun o => mkMSSpectrum (settings s) (meta_info o) (getRT o)
                                     (getMSLevel o) (getName o) (peaks o)) Hw1)
    as (h2 & -> & Hw2).
  cbn [bind]. rewrite (written_input Hw2), Hin. cbn [bind].
  destruct (modify_written
              (fun o => mkMSSpectrum (settings o) (meta_info s) (getRT o)
                                     (getMSLevel o) (getName o) (peaks o)) Hw2)
    as (h3 & -> & Hw3).
  cbn [bind]. rewrite (written_input Hw3), Hin. cbn [bind].
  destruct (modify_written
              (fun o => mkMSSpectrum (settings o) (meta_info o) (getRT s)
                                     (getMSLevel o) (getName o) (peaks o)) Hw3)
    as (h4 & -> & Hw4).
  cbn [bind]. rewrite (written_input Hw4), Hin. cbn [bind].
  destruct (modify_written
              (fun o => mkMSSpectrum (settings o) (meta_info o) (getRT o)
                                     (getMSLevel s) (getName o) (peaks o)) Hw4)
    as (h5 & -> & Hw5).
  cbn [bind]. rewrite (written_input Hw5), Hin. cbn [bind].
  destruct (modify_written
              (fun o => mkMSSpectrum (settings o) (meta_info o) (getRT o)
                                     (getMSLevel o) (getName s) (peaks o)) Hw5)
    as (h6 & -> & Hw6).
  cbn [bind].
  destruct (modify_written
              (fun o => mkMSSpectrum
                          (mkSpectrumSettings PEAKS (settings_data (settings o)))
                          (meta_info o) (getRT o) (getMSLevel o) (getName o)
                          (peaks o)) Hw6)
    as (h7 & -> & Hw7).
  cbn [bind].
  assert (Hs := scan_ref_written (intensity_type_area param_) Hin
                  (S (List.length (peaks s))) 2 Hw7).
  rewrite pick_unfold.
  change (match scan (S (List.length (peaks s))) (intensity_type_area param_)
                     (peaks s) 2 [] with
          | Ok picked =>
              exists h',
                scan_ref (S (List.length (peaks s))) (intensity_type_area param_)
                         input output 2 h7 = Ok h' /\
                written h0
                  (mkMSSpectrum
                     (mkSpectrumSettings PEAKS (settings_data (settings s)))
                     (meta_info s) (getRT s) (getMSLevel s) (getName s) picked)
                  h'
          | Err e =>
              scan_ref (S (List.length (peaks s))) (intensity_type_area param_)
                       input output 2 h7 = Err e
          end) in Hs.
  destruct (scan (S (List.length (peaks s))) (intensity_type_area param_)
                 (peaks s) 2 []); cbn [bind]; exact Hs.
Qed.

End Separate.

Section Stores.

Context {A : Type}.

Lemma update_same (h : Objects A) (r : nat) (v : A) : update h r v r = v.
Proof. unfold update. rewrite Nat.eqb_refl. reflexivity. Qed.

Lemma update_other (h : Objects A) (r r' : nat) (v : A) :
  r' <> r -> update h r v r' = h r'.
Proof.
  intros Hne. unfold update.
  destruct (Nat.eqb_spec r' r); [contradiction | reflexivity].
Qed.

Lemma replace_nth_length (v : list A) (n : nat) (x : A) :
  List.length (replace_nth v n x) = List.length v.
Proof.
  revert n. induction v as [| a v IH]; intros [| n]; simpl; auto.
Qed.

Lemma replace_nth_same (v : list A) (n : nat) (x : A) :
  (n < List.length v)%nat -> nth_error (replace_nth v n x) n = Some x.
Proof.
  revert n. induction v as [| a v IH]; intros [| n] Hn; simpl in *;
    try lia; [reflexivity | apply IH; lia].
Qed.

Lemma replace_nth_twice (v : list A) (n : nat) (x y : A) :
  replace_nth (replace_nth v n x) n y = replace_nth v n y.
Proof.
  revert n. induction v as [| a v IH]; intros [| n]; simpl; auto.
  f_equal. apply IH.
Qed.

Lemma replace_nth_self (v : list A) (n : nat) (x : A) :
  nth_error v n = Some x -> replace_nth v n x = v.
Proof.
  revert n. induction v as [| a v IH]; intros [| n] Hn; simpl in *;
    try discriminate; [congruence | f_equal; apply IH; exact Hn].
Qed.

Lemma assign_at_Ok (v : list A) (i : Z) (x : A) :
  (0 <= i)%Z -> (Z.to_nat i < List.length v)%nat ->
  assign_at v i x = Ok (replace_nth v (Z.to_nat i) x).
Proof.
  intros Hlo Hhi. unfold assign_at.
  destruct (Z.ltb_spec i 0); [lia |].
  destruct (Nat.ltb_spec (Z.to_nat i) (List.length v)); [reflexivity | lia].
Qed.

End Stores.

Section SeparateObjects.

Context {D : Type} {ops : DoubleOps D} {ext : Collaborators D}.

(** Called on two different spectrum objects, [pick_ref] assigns to the
    output object what [pick] returns for the two values, and changes
    no other object; it fails where [pick] fails. *)
Lemma pick_ref_separate (param_ : Param) (h : Objects MSSpectrum)
      (input output : nat) :
  input <> output ->
  match pick param_ (h input) (h output) with
  | Ok out =>
      exists h',
        pick_ref param_ (object input) (object output) h = Ok h' /\
        forall r, h' r = update h output out r
  | Err e => pick_ref param_ (object input) (object output) h = Err e
  end.
Proof.
  intros Hne.
  apply (@pick_ref_written D ops ext (Objects MSSpectrum)
           (object input) (object output)
           (fun h0 v h1 => forall r, h1 r = update h0 output v r)).
  - intros h0 o h1 Hw. cbn [load object]. rewrite Hw, update_same. reflexivity.
  - intros h0 o h1 Hw. cbn [load object].
    rewrite Hw, update_other by exact Hne. reflexivity.
  - intros h0 o h1 v Hw. cbn [store object]. eexists. split; [reflexivity |].
    intros r. unfold update. destruct (r =? output)%nat eqn:E;
      [reflexivity |].
    rewrite Hw. unfold update. rewrite E. reflexivity.
  - reflexivity.
  - intros r. unfold update. destruct (Nat.eqb_spec r output) as [-> |];
      reflexivity.
Qed.

(** The same for the elements at one index of two different experiment
    objects. *)
Lemma pick_ref_elements (param_ : Param) (h : Objects MSExperiment)
      (input output : nat) (i : Z) (s o : MSSpectrum) :
  input <> output ->
  at_ (spectra (h input)) i = Ok s ->
  at_ (spectra (h output)) i = Ok o ->
  match pick param_ s o with
  | Ok out =>
      exists h',
        pick_ref param_ (element (object input) i) (element (object output) i) h
        = Ok h' /\
        (forall r, r <> output -> h' r = h r) /\
        h' output
        = mkMSExperiment (experimental_settings (h output))
                         (replace_nth (spectra (h output)) (Z.to_nat i) out)
  | Err e =>
      pick_ref param_ (element (object input) i) (element (object output) i) h
      = Err e
  end.
Proof.
  intros Hne Hs Ho.
  apply at_Ok in Ho. destruct Ho as [Hlo Ho].
  assert (Hhi : (Z.to_nat i < List.length (spectra (h output)))%nat)
    by (apply nth_error_Some; congruence).
  set (written := fun (h0 : Objects MSExperiment) (v : MSSpectrum)
                      (h1 : Objects MSExperiment) =>
         (Z.to_nat i < List.length (spectra (h0 output)))%nat /\
         (forall r, r <> output -> h1 r = h0 r) /\
         h1 output
         = mkMSExperiment (experimental_settings (h0 output))
                          (replace_nth (spectra (h0 output)) (Z.to_nat i) v)).
  assert (Hres :
            match pick param_ s o with
            | Ok out =>
                exists h',
                  pick_ref param_ (element (object input) i)
                           (element (object output) i) h = Ok h' /\
                  written h out h'
            | Err e =>
                pick_ref param_ (element (object input) i)
                         (element (object output) i) h = Err e
            end).
  { apply (@pick_ref_written D ops ext (Objects MSExperiment)
             (element (object input) i) (element (object output) i) written).
    - intros h0 v h1 (Hh & _ & Hb). cbn [load element object bind].
      rewrite Hb. cbn [spectra]. apply at_Ok. split; [exact Hlo |].
      apply replace_nth_same. exact Hh.
    - intros h0 v h1 (_ & Hf & _). cbn [load element object bind].
      rewrite Hf by exact Hne. reflexivity.
    - intros h0 v h1 w (Hh & Hf & Hb). cbn [store load element object bind].
      rewrite Hb. cbn [spectra experimental_settings].
      rewrite assign_at_Ok by (rewrite ?replace_nth_length; assumption).
      cbn [bind]. eexists. split; [reflexivity |].
      split; [exact Hh |]. split.
      + intros r Hr. rewrite update_other by exact Hr. apply Hf, Hr.
      + rewrite update_same, replace_nth_twice. reflexivity.
    - cbn [load element object bind]. exact Hs.
    - split; [exact Hhi |]. split; [reflexivity |].
      rewrite (replace_nth_self _ _ Ho). destruct (h output). reflexivity. }
  destruct (pick param_ s o) as [out | e]; [| exact Hres].
  destruct Hres as (h' & Hp & _ & Hf & Hb). exists h'. auto.
Qed.

End SeparateObjects.

Section SeparateExperiments.

Context {D : Type} {ops : DoubleOps D} {ext : Collaborators D}.

Lemma driver_step_ref_separate (param_ : Param) (ms1 : bool)
      (input output : nat) (h : Objects MSExperiment) (idx count : Z)
      (log : list ProgressEvent) :
  input <> output ->
  match driver_step param_ ms1 (spectra (h input))
                    (mkDriverState idx (spectra (h output)) count log) with
  | Ok st' =>
      exists h',
        driver_step_ref param_ ms1 (object input) (object output)
                        (mkDriverRefState idx h count log)
        = Ok (mkDriverRefState (scan_idx st') h' (progress st')
                               (progress_log st')) /\
        (forall r, r <> output -> h' r = h r) /\
        h' output = mkMSExperiment (experimental_settings (h output))
                                   (out_spectra st')
  | Err e =>
      driver_step_ref param_ ms1 (object input) (object output)
                      (mkDriverRefState idx h count log) = Err e
  end.
Proof.
  intros Hne. unfold driver_step, driver_step_ref.
  cbn [scan_idx out_spectra progress progress_log ref_scan_idx ref_store
       ref_progress ref_progress_log].
  cbn [load element object bind].
  destruct (at_ (spectra (h input)) idx) as [s | e] eqn:Hs; cbn [bind];
    [| reflexivity].
  destruct (ms1 && negb (getMSLevel s =? 1)%Z).
  - cbn [store load element object bind].
    destruct (assign_at (spectra (h output)) idx s) as [v | e]; cbn [bind];
      [| reflexivity].
    eexists. split; [reflexivity |].
    cbn [scan_idx out_spectra progress progress_log]. split.
    + intros r Hr. apply update_other. exact Hr.
    + apply update_same.
  - destruct (at_ (spectra (h output)) idx) as [o | e] eqn:Ho; cbn [bind].
    + assert (Hp := @pick_ref_elements D ops ext param_ h input output idx s o Hne Hs Ho).
      destruct (pick param_ s o) as [out | e]; cbn [bind].
      * destruct Hp as (h' & -> & Hf & Hb). cbn [bind].
        apply at_Ok in Ho. destruct Ho as [Hlo Ho].
        rewrite assign_at_Ok;
          [| exact Hlo | apply nth_error_Some; congruence].
        cbn [bind]. exists h'. split; [reflexivity |].
        cbn [out_spectra]. split; assumption.
      * rewrite Hp. reflexivity.
    + unfold pick_ref. cbn [load element object bind]. rewrite Hs.
      cbn [bind]. unfold modify at 1. cbn [load element object bind].
      rewrite Ho. reflexivity.
Qed.

Lemma driver_loop_ref_separate (param_ : Param) (ms1 : bool)
      (input output : nat) :
  input <> output ->
  forall (fuel : nat) (h : Objects MSExperiment) (idx count : Z)
         (log : list ProgressEvent),
    match driver_loop fuel param_ ms1 (spectra (h input))
                      (mkDriverState idx (spectra (h output)) count log) with
    | Ok st' =>
        exists h',
          driver_loop_ref fuel param_ ms1 (object input) (object output)
                          (mkDriverRefState idx h count log)
          = Ok (mkDriverRefState (scan_idx st') h' (progress st')
                                 (progress_log st')) /\
          (forall r, r <> output -> h' r = h r) /\
          h' output = mkMSExperiment (experimental_settings (h output))
                                     (out_spectra st')
    | Err e =>
        driver_loop_ref fuel param_ ms1 (object input) (object output)
                        (mkDriverRefState idx h count log) = Err e
    end.
Proof.
  intros Hne.
  assert (Hstop : forall (h : Objects MSExperiment) idx count log,
             exists h',
               Ok (mkDriverRefState idx h count log)
               = Ok (mkDriverRefState idx h' count log) /\
               (forall r, r <> output -> h' r = h r) /\
               h' output = mkMSExperiment (experimental_settings (h output))
                                          (spectra (h output))).
  { intros h idx count log. exists h. split; [reflexivity |].
    split; [reflexivity |]. destruct (h output). reflexivity. }
  induction fuel as [| fuel IH]; intros h idx count log;
    cbn [driver_loop driver_loop_ref scan_idx ref_scan_idx ref_store];
    cbn [load object bind];
    destruct (idx =? size (spectra (h input)))%Z;
    try apply Hstop; try reflexivity.
  assert (Hstep := @driver_step_ref_separate param_ ms1 input output h idx count log Hne).
  destruct (driver_step param_ ms1 (spectra (h input))
              (mkDriverState idx (spectra (h output)) count log))
    as [[idx1 out1 count1 log1] | e]; cbn [bind];
    [| rewrite Hstep; reflexivity].
  destruct Hstep as (h1 & -> & Hf1 & Hb1). cbn [bind].
  cbn [scan_idx out_spectra progress progress_log] in *.
  specialize (IH h1 idx1 count1 log1).
  rewrite (Hf1 input Hne), Hb1 in IH. cbn [spectra] in IH.
  destruct (driver_loop fuel param_ ms1 (spectra (h input))
              (mkDriverState idx1 out1 count1 log1)) as [st' | e];
    [| exact IH].
  destruct IH as (h' & Hl & Hf & Hb). exists h'. split; [exact Hl |].
  split.
  - intros r Hr. rewrite (Hf r Hr). apply Hf1, Hr.
  - rewrite Hb. reflexivity.
Qed.

(** Called on two different experiment objects, [pickExperiment_ref]
    assigns to the output object what [pickExperiment] returns for the
    two values, makes the same progress calls, and changes no other
    object; it fails where [pickExperiment] fails. *)
Lemma pickExperiment_ref_separate (param_ : Param)
      (h : Objects MSExperiment) (input output : nat) :
  input <> output ->
  match pickExperiment param_ (h input) (h output) with
  | Ok (out, log) =>
      exists h',
        pickExperiment_ref param_ (object input) (object output) h
        = Ok (h', log) /\
        (forall r, r <> output -> h' r = h r) /\
        h' output = out
  | Err e =>
      pickExperiment_ref param_ (object input) (object output) h = Err e
  end.
Proof.
  intros Hne. unfold pickExperiment_ref, modify.
  cbn [load store object bind]. cbv zeta.
  rewrite !update_same. rewrite !(update_other _ _ Hne).
  set (h3 := update _ output _).
  assert (Hl := @driver_loop_ref_separate param_ (ms1_only param_)
                  input output Hne
                  (List.length (spectra (h input))) h3 0 0
                  [startProgress 0 (size (spectra (h input))) "picking peaks"]).
  unfold h3 at 1 2 in Hl.
  rewrite update_same in Hl. repeat rewrite (update_other _ _ Hne) in Hl.
  unfold pickExperiment. cbv zeta.
  cbn [experimental_settings spectra MSExperiment_clear] in *.
  destruct (driver_loop _ _ _ _ _) as [st' | e]; cbn [bind];
    [| rewrite Hl; reflexivity].
  destruct Hl as (h' & -> & Hf & Hb). cbn [bind ref_store ref_progress_log].
  exists h'. split; [reflexivity |]. split.
  - intros r Hr. rewrite (Hf r Hr). unfold h3.
    rewrite !update_other by exact Hr. reflexivity.
  - rewrite Hb. unfold h3. rewrite update_same. reflexivity.
Qed.

End SeparateExperiments.

(* ================================================================= *)
(** ** One object as input and output *)

Section OneObject.

Context {D : Type} {ops : DoubleOps D} {ext : Collaborators D}.

(** X21.  [pick] cannot work in place: called with one spectrum object
    as input and as output it clears the object, [input.size() - 2]
    wraps around, and the read of [input[2]] is outside the vector,
    whatever the spectrum held. *)
Theorem pick_in_place_out_of_range (param_ : Param) (h : Objects MSSpectrum)
        (r : nat) :
  pick_ref param_ (object r) (object r) h = Err OutOfRange.
Proof.
  unfold pick_ref, modify. cbn [load store object bind]. cbv zeta.
  rewrite !update_same. cbn [scan_ref load object bind].
  rewrite update_same.
  cbn [clear MSSpectrum_new peaks settings meta_info getRT getMSLevel getName].
  change (2 <? SizeT.sub (size (@nil (Peak D))) 2)%Z with true. cbv iota.
  unfold scan_step_ref. cbn [load object bind]. rewrite update_same.
  reflexivity.
Qed.

(** X22.  [pickExperiment] called with one experiment object as input
    and as output clears the object and then finds nothing to do: it
    returns with that object empty and carrying default settings, the
    other objects unchanged, and the progress logger was told of a run
    over no spectrum. *)
Theorem pickExperiment_in_place_empties (param_ : Param)
        (h : Objects MSExperiment) (r : nat) :
  exists h',
    pickExperiment_ref param_ (object r) (object r) h
    = Ok (h', [startProgress 0 0 "picking peaks"; endProgress]) /\
    h' r = mkMSExperiment new_ExperimentalSettings [] /\
    forall r', r' <> r -> h' r' = h r'.
Proof.
  unfold pickExperiment_ref, modify. cbn [load store object bind]. cbv zeta.
  rewrite !update_same.
  cbn [MSExperiment_clear spectra experimental_settings].
  assert (Hloop : forall fuel (h1 : Objects MSExperiment) log,
             spectra (h1 r) = [] ->
             driver_loop_ref fuel param_ (ms1_only param_) (object r) (object r)
                             (mkDriverRefState 0 h1 0 log)
             = Ok (mkDriverRefState 0 h1 0 log)).
  { intros fuel h1 log Hempty.
    destruct fuel; cbn [driver_loop_ref ref_store ref_scan_idx load object bind];
      rewrite Hempty; reflexivity. }
  rewrite Hloop by (rewrite update_same; reflexivity).
  cbn [bind ref_store ref_progress_log spectra resize].
  eexists. split; [reflexivity |]. split.
  - rewrite update_same. reflexivity.
  - intros r' Hr. rewrite !update_other by exact Hr. reflexivity.
Qed.

End OneObject.

Section Frames.

Context {D : Type} {ops : DoubleOps D} {ext : Collaborators D}.

(** X23.  Called on two different spectrum objects, [pick] writes its
    output object only: it returns exactly when [pick] on the two
    values returns, the output object then holds that result, and the
    input object and every other object are as before. *)
Theorem pick_writes_output_only (param_ : Param) (h : Objects MSSpectrum)
        (input output : nat) :
  input <> output ->
  match pick_ref param_ (object input) (object output) h with
  | Ok h' =>
      pick param_ (h input) (h output) = Ok (h' output) /\
      forall r, r <> output -> h' r = h r
  | Err e => pick param_ (h input) (h output) = Err e
  end.
Proof.
  intros Hne. assert (H := pick_ref_separate param_ h Hne).
  destruct (pick param_ (h input) (h output)) as [out | e].
  - destruct H as (h' & -> & Hu). split.
    + rewrite Hu, update_same. reflexivity.
    + intros r Hr. rewrite Hu. apply update_other. exact Hr.
  - rewrite H. reflexivity.
Qed.

(** X24.  The same for [pickExperiment] on two different experiment
    objects, with the calls to the progress logger. *)
Theorem pickExperiment_writes_output_only (param_ : Param)
        (h : Objects MSExperiment) (input output : nat) :
  input <> output ->
  match pickExperiment_ref param_ (object input) (object output) h with
  | Ok (h', log) =>
      pickExperiment param_ (h input) (h output) = Ok (h' output, log) /\
      forall r, r <> output -> h' r = h r
  | Err e => pickExperiment param_ (h input) (h output) = Err e
  end.
Proof.
  intros Hne. assert (H := pickExperiment_ref_separate param_ h Hne).
  destruct (pickExperiment param_ (h input) (h output)) as [[out log] | e].
  - destruct H as (h' & -> & Hf & <-). split; [reflexivity | exact Hf].
  - rewrite H. reflexivity.
Qed.

End Frames.

(* ================================================================= *)
(** ** The driver on short spectra *)

Section Returns.

Context {D : Type} {ops : DoubleOps D} {ext : Collaborators D}.

(** Inside a vector of representable size [pick] never uses up its
    loop budget: if it fails, it has read outside the vector. *)
Lemma pick_error_OutOfRange (param_ : Param) (input output : MSSpectrum)
      (e : error) :
  SizeT.representable (List.length (peaks input)) ->
  pick param_ input output = Err e -> e = OutOfRange.
Proof.
  intros Hrep Hpick.
  destruct (Nat.lt_ge_cases (List.length (peaks input)) 2) as [Hshort | Hlen].
  - rewrite pick_unfold in Hpick. simpl scan in Hpick.
    rewrite sub_underflow in Hpick by (unfold size; lia).
    destruct (Z.ltb_spec 2 (SizeT.modulus - 2 + size (peaks input)))
      as [_ | H]; [| rewrite modulus_value in H; unfold size in H; lia].
    unfold scan_step, read_window in Hpick.
    rewrite (@at_out_of_range _ (peaks input) 2) in Hpick by lia.
    cbn [bind] in Hpick. congruence.
  - destruct (proj2 (pick_Ok_iff param_ input output Hrep) Hlen) as [out Hout].
    congruence.
Qed.

(** The driver returns when every spectrum it has to pick has at least
    two samples. *)
Lemma pickExperiment_returns (param_ : Param) (input output : MSExperiment) :
  SizeT.representable (List.length (spectra input)) ->
  Forall (fun s => SizeT.representable (List.length (peaks s)))
         (spectra input) ->
  Forall (fun s => (ms1_only param_ = true /\ getMSLevel s <> 1%Z)
                   \/ (2 <= List.length (peaks s))%nat)
         (spectra input) ->
  exists out log, pickExperiment param_ input output = Ok (out, log).
Proof.
  intros Hrep Hreps Hall.
  assert (Hmap := pickExperiment_map_result param_ input output Hrep).
  destruct (proj2 (map_result_Ok_iff (pass_or_pick param_) (spectra input)))
    as [outs Houts].
  { rewrite Forall_forall in *. intros s Hs.
    apply pass_or_pick_Ok_iff; [apply Hreps, Hs | apply Hall, Hs]. }
  rewrite Houts in Hmap. destruct Hmap as [log Hpe].
  eexists. exists log. exact Hpe.
Qed.

(** C8.  An experiment with a spectrum that gets picked and has fewer
    than two samples: [pickExperiment] returns no experiment of the
    input's length, it reads outside a vector (the defect of C3, reached
    through the driver). *)
Theorem pickExperiment_short_out_of_range (param_ : Param)
        (input output : MSExperiment) (idx : nat) (s : MSSpectrum) :
  SizeT.representable (List.length (spectra input)) ->
  Forall (fun s => SizeT.representable (List.length (peaks s)))
         (spectra input) ->
  nth_error (spectra input) idx = Some s ->
  ms1_only param_ = false \/ getMSLevel s = 1%Z ->
  (List.length (peaks s) < 2)%nat ->
  pickExperiment param_ input output = Err OutOfRange.
Proof.
  intros Hrep Hreps Hs Hpicked Hshort.
  assert (Hmap := pickExperiment_map_result param_ input output Hrep).
  rewrite Forall_forall in Hreps.
  destruct (map_result (pass_or_pick param_) (spectra input))
    as [outs | e] eqn:E.
  - exfalso. apply map_result_Ok in E. destruct E as [_ Hnth].
    destruct (Hnth idx s Hs) as (o & Ho & _).
    assert (Hrs : SizeT.representable (List.length (peaks s)))
      by (apply Hreps; eapply nth_error_In; exact Hs).
    destruct (proj1 (pass_or_pick_Ok_iff param_ s Hrs) (ex_intro _ o Ho))
      as [[Hms Hlvl] | Hlen]; [| lia].
    destruct Hpicked as [Hf | Hl]; congruence.
  - rewrite Hmap. f_equal.
    apply map_result_Err in E. destruct E as (idx' & s' & Hs' & Hf).
    unfold pass_or_pick in Hf.
    destruct (passes_through param_ s'); [discriminate |].
    eapply pick_error_OutOfRange; [| exact Hf].
    apply Hreps. eapply nth_error_In. exact Hs'.
Qed.

(** X20.  On an experiment in which every spectrum that gets picked has
    at least two samples, [pickExperiment] returns an experiment with
    the input's settings and as many spectra as the input; at every
    index a spectrum whose level is not 1 is returned unchanged when
    [ms1_only] is set, and every other spectrum is replaced by its
    [pick]. *)
Theorem pickExperiment_returns_pass_or_pick (param_ : Param)
        (input output : MSExperiment) :
  SizeT.representable (List.length (spectra input)) ->
  Forall (fun s => SizeT.representable (List.length (peaks s)))
         (spectra input) ->
  Forall (fun s => (ms1_only param_ = true /\ getMSLevel s <> 1%Z)
                   \/ (2 <= List.length (peaks s))%nat)
         (spectra input) ->
  exists out log,
    pickExperiment param_ input output = Ok (out, log) /\
    experimental_settings out = experimental_settings input /\
    List.length (spectra out) = List.length (spectra input) /\
    forall idx s,
      nth_error (spectra input) idx = Some s ->
      (ms1_only param_ = true -> getMSLevel s <> 1%Z ->
       nth_error (spectra out) idx = Some s) /\
      (ms1_only param_ = false \/ getMSLevel s = 1%Z ->
       exists o, pick param_ s MSSpectrum_new = Ok o /\
                 nth_error (spectra out) idx = Some o).
Proof.
  intros Hrep Hreps Hall.
  destruct (pickExperiment_returns param_ input output Hrep Hreps Hall)
    as (out & log & Hout).
  assert (H := pickExperiment_pass_or_pick param_ input output Hrep).
  rewrite Hout in H. exists out, log. split; [exact Hout | exact H].
Qed.

End Returns.

(* ================================================================= *)
(** ** Two runs on one input *)

Section TwoRuns.

Context {D : Type} {ops : DoubleOps D} {ext : Collaborators D}.

(** C9, as amended.  Two runs on the same input and the same option
    values, each with an output object that is not its input object,
    and on spectra with at least two samples wherever one is picked:
    both return, and the two output objects hold the same result,
    whatever they and the other objects of the two stores held before;
    for [pickExperiment] the calls to the progress logger agree too. *)
Theorem runs_agree (param_ : Param) :
  (forall (h1 h2 : Objects MSSpectrum) (in1 out1 in2 out2 : nat),
      in1 <> out1 -> in2 <> out2 ->
      h1 in1 = h2 in2 ->
      SizeT.representable (List.length (peaks (h1 in1))) ->
      (2 <= List.length (peaks (h1 in1)))%nat ->
      exists h1' h2',
        pick_ref param_ (object in1) (object out1) h1 = Ok h1' /\
        pick_ref param_ (object in2) (object out2) h2 = Ok h2' /\
        h1' out1 = h2' out2)
  /\ (forall (h1 h2 : Objects MSExperiment) (in1 out1 in2 out2 : nat),
         in1 <> out1 -> in2 <> out2 ->
         h1 in1 = h2 in2 ->
         SizeT.representable (List.length (spectra (h1 in1))) ->
         Forall (fun s => SizeT.representable (List.length (peaks s)))
                (spectra (h1 in1)) ->
         Forall (fun s => (ms1_only param_ = true /\ getMSLevel s <> 1%Z)
                          \/ (2 <= List.length (peaks s))%nat)
                (spectra (h1 in1)) ->
         exists h1' h2' log,
           pickExperiment_ref param_ (object in1) (object out1) h1
           = Ok (h1', log) /\
           pickExperiment_ref param_ (object in2) (object out2) h2
           = Ok (h2', log) /\
           h1' out1 = h2' out2).
Proof.
  split.
  - intros h1 h2 in1 out1 in2 out2 Hne1 Hne2 Hsame Hrep Hlen.
    destruct (proj2 (pick_Ok_iff param_ (h1 in1) (h1 out1) Hrep) Hlen)
      as [out Hout].
    assert (H1 := pick_ref_separate param_ h1 Hne1).
    assert (H2 := pick_ref_separate param_ h2 Hne2).
    rewrite <- Hsame in H2.
    rewrite (pick_ignores_output param_ (h1 in1) (h2 out2) (h1 out1)) in H2.
    rewrite Hout in H1, H2.
    destruct H1 as (h1' & Hp1 & Hu1). destruct H2 as (h2' & Hp2 & Hu2).
    exists h1', h2'. split; [exact Hp1 |]. split; [exact Hp2 |].
    rewrite Hu1, Hu2, !update_same. reflexivity.
  - intros h1 h2 in1 out1 in2 out2 Hne1 Hne2 Hsame Hrep Hreps Hall.
    destruct (pickExperiment_returns param_ (h1 in1) (h1 out1) Hrep Hreps Hall)
      as (out & log & Hout).
    assert (H1 := pickExperiment_ref_separate param_ h1 Hne1).
    assert (H2 := pickExperiment_ref_separate param_ h2 Hne2).
    rewrite <- Hsame in H2.
    rewrite (pickExperiment_ignores_output param_ (h1 in1) (h2 out2) (h1 out1))
      in H2.
    rewrite Hout in H1, H2.
    destruct H1 as (h1' & Hp1 & _ & Hu1). destruct H2 as (h2' & Hp2 & _ & Hu2).
    exists h1', h2', log. split; [exact Hp1 |]. split; [exact Hp2 |].
    congruence.
Qed.

End TwoRuns.

(* ================================================================= *)
(** ** Runs on further spectra *)

Section MoreRuns.

#[local] Existing Instance ieee.
#[local] Existing Instance text_collaborators.

Lemma CmpPeakByIntensity_strict_order_witness :
  CmpPeakByIntensity MoreSamples.strong MoreSamples.weak = true.
Proof.
  apply (proj2 (proj2 (@CmpPeakByIntensity_strict_order RefLibm.libm))
               MoreSamples.strong MoreSamples.medium MoreSamples.weak);
    vm_compute; reflexivity.
Defined.

Lemma CmpPeakByIntensity_nan_witness :
  (CmpPeakByIntensity MoreSamples.strong MoreSamples.broken = false
   /\ CmpPeakByIntensity MoreSamples.broken MoreSamples.strong = false)
  /\ (CmpPeakByIntensity MoreSamples.broken MoreSamples.weak = false
      /\ CmpPeakByIntensity MoreSamples.weak MoreSamples.broken = false)
  /\ ~ (CmpPeakByIntensity MoreSamples.strong MoreSamples.weak = false
        /\ CmpPeakByIntensity MoreSamples.weak MoreSamples.strong = false).
Proof.
  apply (@CmpPeakByIntensity_nan RefLibm.libm MoreSamples.broken
           MoreSamples.strong MoreSamples.weak);
    vm_compute; reflexivity.
Defined.

Lemma pick_peak_count_witness :
  match pick Samples.height_param Samples.raw_spectrum Samples.stale_spectrum
  with
  | Ok out =>
      peaks out = [] \/
      (2 * List.length (peaks out) + 3
       <= List.length (peaks Samples.raw_spectrum))%nat
  | Err _ => True
  end.
Proof.
  apply (@pick_peak_count float ieee text_collaborators Samples.height_param
           Samples.raw_spectrum Samples.stale_spectrum).
  apply representable_small. simpl. lia.
Defined.

Lemma pick_below_floor_witness :
  exists out,
    pick Samples.area_param MoreSamples.baseline_spectrum Samples.stale_spectrum
    = Ok out /\ peaks out = [].
Proof.
  apply (@pick_below_floor float ieee text_collaborators Samples.area_param
           MoreSamples.baseline_spectrum Samples.stale_spectrum).
  - apply representable_small. simpl. lia.
  - simpl. lia.
  - repeat constructor.
Defined.

Lemma one_peak_window_3 : window_in_bounds Samples.one_peak 3.
Proof.
  split; [apply representable_small; simpl; lia |].
  unfold size; simpl; lia.
Qed.

Lemma nan_window_2 : window_in_bounds MoreSamples.nan_window 2.
Proof.
  split; [apply representable_small; simpl; lia |].
  unfold size; simpl; lia.
Qed.

Lemma jump_skips_no_candidate_witness :
  is_candidate Samples.one_peak (2 + 1) = Ok false.
Proof.
  apply (@jump_skips_no_candidate RefLibm.libm Samples.one_peak 2%Z
           one_peak_window one_peak_window_3).
  vm_compute. reflexivity.
Defined.

Lemma nan_sample_rejected_witness :
  is_candidate MoreSamples.nan_window 2 = Ok false.
Proof.
  apply (@nan_sample_rejected RefLibm.libm MoreSamples.nan_window 2%Z 4%Z
           (mkPeak 100.5 nan)%float nan_window_2).
  - lia.
  - reflexivity.
  - right. reflexivity.
Defined.

Lemma candidate_distinct_neighbours_witness :
  (0 <? spacing (mkPeak 100.125 5) (mkPeak 100.25 50))%float = true
  /\ (0 <? spacing (mkPeak 100.25 50) (mkPeak 100.375 5))%float = true.
Proof.
  apply (@candidate_distinct_neighbours RefLibm.libm Samples.one_peak 2%Z
           (mkPeak 100.125 5)%float (mkPeak 100.25 50)%float
           (mkPeak 100.375 5)%float one_peak_window);
    vm_compute; reflexivity.
Defined.

Lemma pickExperiment_returns_iff_witness :
  (exists r, pickExperiment Samples.height_param Samples.experiment
                            Samples.stale_experiment = Ok r)
  <-> Forall (fun s => (ms1_only Samples.height_param = true
                        /\ getMSLevel s <> 1%Z)
                       \/ (2 <= List.length (peaks s))%nat)
             (spectra Samples.experiment).
Proof.
  apply (@pickExperiment_returns_iff float ieee text_collaborators
           Samples.height_param Samples.experiment Samples.stale_experiment).
  - apply representable_small. simpl. lia.
  - repeat constructor; apply representable_small; simpl; lia.
Defined.

Lemma pickExperiment_progress_witness :
  match pickExperiment Samples.height_param Samples.experiment
                       Samples.stale_experiment with
  | Ok (_, log) =>
      log = startProgress 0 (Z.of_nat (List.length (spectra Samples.experiment)))
                          "picking peaks"
            :: map (fun k => setProgress (Z.of_nat k))
                   (seq 1 (List.length (spectra Samples.experiment)))
            ++ [endProgress]
  | Err _ => True
  end.
Proof.
  apply (@pickExperiment_progress float ieee text_collaborators
           Samples.height_param Samples.experiment Samples.stale_experiment).
  apply representable_small. simpl. lia.
Defined.

(** On that experiment the calls are these. *)
Example progress_of_experiment :
  exists out,
    pickExperiment Samples.height_param Samples.experiment
                   Samples.stale_experiment
    = Ok (out, [startProgress 0 3 "picking peaks"; setProgress 1;
                setProgress 2; setProgress 3; endProgress]).
Proof. eexists. vm_compute. reflexivity. Qed.

Lemma pick_peaks_are_fits_witness :
  exists out,
    pick Samples.height_param Samples.raw_spectrum Samples.stale_spectrum = Ok out
    /\ Forall (fun p => exists i : Z,
                   window_in_bounds (peaks Samples.raw_spectrum) i /\
                   accepted_fit (intensity_type_area Samples.height_param)
                                (peaks Samples.raw_spectrum) i p)
              (peaks out).
Proof.
  destruct (pick Samples.height_param Samples.raw_spectrum Samples.stale_spectrum)
    as [out | e] eqn:Hpick; [| vm_compute in Hpick; discriminate].
  exists out. split; [reflexivity |].
  apply (@pick_peaks_are_fits float ieee text_collaborators
           Samples.height_param Samples.raw_spectrum Samples.stale_spectrum out).
  - apply representable_small. simpl. lia.
  - exact Hpick.
Defined.

Lemma pick_complete_witness :
  exists out,
    pick Samples.height_param Samples.raw_spectrum Samples.stale_spectrum = Ok out
    /\ In (picked_peak false
             (computeTPG (mkPeak 100.125 5) (mkPeak 100.25 50)
                         (mkPeak 100.375 5))%float)
          (peaks out).
Proof.
  destruct (pick Samples.height_param Samples.raw_spectrum Samples.stale_spectrum)
    as [out | e] eqn:Hpick; [| vm_compute in Hpick; discriminate].
  exists out. split; [reflexivity |].
  apply (@pick_complete RefLibm.libm text_collaborators
           Samples.height_param Samples.raw_spectrum Samples.stale_spectrum out
           2%Z).
  - apply representable_small. simpl. lia.
  - exact Hpick.
  - exact one_peak_window.
  - exists (mkPeak 100.25 50)%float, (mkPeak 100.125 5)%float,
      (mkPeak 100.375 5)%float, (mkPeak 100 2)%float, (mkPeak 100.5 2)%float.
    repeat split; vm_compute; reflexivity.
Defined.

Lemma runs_agree_witness :
  (exists h1' h2',
      pick_ref Samples.height_param (object 0) (object 1) MoreSamples.spectrum_store
      = Ok h1' /\
      pick_ref Samples.height_param (object 3) (object 2) MoreSamples.other_spectrum_store
      = Ok h2' /\
      h1' 1%nat = h2' 2%nat)
  /\ (exists h1' h2' log,
         pickExperiment_ref Samples.height_param (object 0) (object 1)
                            MoreSamples.experiment_store = Ok (h1', log) /\
         pickExperiment_ref Samples.height_param (object 3) (object 2)
                            MoreSamples.other_experiment_store = Ok (h2', log) /\
         h1' 1%nat = h2' 2%nat).
Proof.
  split.
  - apply (proj1 (@runs_agree float ieee text_collaborators Samples.height_param)
                 MoreSamples.spectrum_store MoreSamples.other_spectrum_store 0%nat 1%nat 3%nat 2%nat).
    + discriminate.
    + discriminate.
    + reflexivity.
    + apply representable_small. simpl. lia.
    + simpl. lia.
  - apply (proj2 (@runs_agree float ieee text_collaborators Samples.height_param)
                 MoreSamples.experiment_store MoreSamples.other_experiment_store 0%nat 1%nat 3%nat 2%nat).
    + discriminate.
    + discriminate.
    + reflexivity.
    + apply representable_small. simpl. lia.
    + repeat constructor; apply representable_small; simpl; lia.
    + repeat constructor; right; simpl; lia.
Defined.

(** C9, as stated, fails: two runs on the same spectrum and the same
    option values, one with a separate output object, one with the
    input object as output; and the same for an experiment. *)
Lemma same_object_run_differs :
  (exists h',
      pick_ref Samples.height_param (object 0) (object 1) MoreSamples.spectrum_store
      = Ok h')
  /\ pick_ref Samples.height_param (object 0) (object 0) MoreSamples.spectrum_store
     = Err OutOfRange
  /\ (exists h1 log1 h2 log2,
         pickExperiment_ref Samples.height_param (object 0) (object 1)
                            MoreSamples.experiment_store = Ok (h1, log1) /\
         pickExperiment_ref Samples.height_param (object 0) (object 0)
                            MoreSamples.experiment_store = Ok (h2, log2) /\
         List.length (spectra (h1 1%nat)) = 3%nat /\
         spectra (h2 0%nat) = [] /\
         log1 <> log2).
Proof.
  split; [eexists; vm_compute; reflexivity |].
  split; [vm_compute; reflexivity |].
  do 4 eexists.
  split; [vm_compute; reflexivity |].
  split; [vm_compute; reflexivity |].
  split; [vm_compute; reflexivity |].
  split; [vm_compute; reflexivity | discriminate].
Qed.

Lemma pickExperiment_short_out_of_range_witness :
  pickExperiment Samples.height_param MoreSamples.gappy_experiment Samples.stale_experiment
  = Err OutOfRange.
Proof.
  apply (@pickExperiment_short_out_of_range float ieee text_collaborators
           Samples.height_param MoreSamples.gappy_experiment Samples.stale_experiment
           1%nat Samples.empty_spectrum).
  - apply representable_small. simpl. lia.
  - repeat constructor; apply representable_small; simpl; lia.
  - reflexivity.
  - right. reflexivity.
  - simpl. lia.
Defined.

Lemma pickExperiment_returns_pass_or_pick_witness :
  exists out log,
    pickExperiment Samples.height_param Samples.experiment
                   Samples.stale_experiment = Ok (out, log) /\
    experimental_settings out = experimental_settings Samples.experiment /\
    List.length (spectra out) = List.length (spectra Samples.experiment) /\
    forall idx s,
      nth_error (spectra Samples.experiment) idx = Some s ->
      (ms1_only Samples.height_param = true -> getMSLevel s <> 1%Z ->
       nth_error (spectra out) idx = Some s) /\
      (ms1_only Samples.height_param = false \/ getMSLevel s = 1%Z ->
       exists o, pick Samples.height_param s MSSpectrum_new = Ok o /\
                 nth_error (spectra out) idx = Some o).
Proof.
  apply (@pickExperiment_returns_pass_or_pick float ieee text_collaborators
           Samples.height_param Samples.experiment Samples.stale_experiment).
  - apply representable_small. simpl. lia.
  - repeat constructor; apply representable_small; simpl; lia.
  - repeat constructor; right; simpl; lia.
Defined.

Lemma pick_writes_output_only_witness :
  match pick_ref Samples.height_param (object 0) (object 1) MoreSamples.spectrum_store with
  | Ok h' =>
      pick Samples.height_param (MoreSamples.spectrum_store 0%nat) (MoreSamples.spectrum_store 1%nat)
      = Ok (h' 1%nat) /\
      forall r, r <> 1%nat -> h' r = MoreSamples.spectrum_store r
  | Err e =>
      pick Samples.height_param (MoreSamples.spectrum_store 0%nat) (MoreSamples.spectrum_store 1%nat)
      = Err e
  end.
Proof.
  apply (@pick_writes_output_only float ieee text_collaborators
           Samples.height_param MoreSamples.spectrum_store 0%nat 1%nat).
  discriminate.
Defined.

Lemma pickExperiment_writes_output_only_witness :
  match pickExperiment_ref Samples.height_param (object 0) (object 1)
                           MoreSamples.experiment_store with
  | Ok (h', log) =>
      pickExperiment Samples.height_param (MoreSamples.experiment_store 0%nat)
                     (MoreSamples.experiment_store 1%nat) = Ok (h' 1%nat, log) /\
      forall r, r <> 1%nat -> h' r = MoreSamples.experiment_store r
  | Err e =>
      pickExperiment Samples.height_param (MoreSamples.experiment_store 0%nat)
                     (MoreSamples.experiment_store 1%nat) = Err e
  end.
Proof.
  apply (@pickExperiment_writes_output_only float ieee text_collaborators
           Samples.height_param MoreSamples.experiment_store 0%nat 1%nat).
  discriminate.
Defined.

End MoreRuns.
